(** * Verification of the table renderer in [qualifier/qualifier.py]

    The module renders a two-dimensional list of printable values as a
    bordered text table.  The development below embeds the Python functions
    [make_table], [createHeaderLines], [createWordsLines], [firstLine],
    [headerBotLine], [wordsLine], [lastLine] and [paddedWord] together with
    the built-in string operations they call, and proves the properties the
    specification states about them. *)

From Stdlib Require Import String Ascii List ZArith NArith Lia Bool.
Import ListNotations.

Local Open Scope Z_scope.

(** ** Python strings

    A Python [str] is a sequence of Unicode code points and [len] counts
    code points, so a string is a list of code points. *)

Definition pychar := N.
Definition pystr := list pychar.

Definition space : pychar := 32%N.
Definition newline : pychar := 10%N.

(** [len(s)] *)
Definition len {A : Type} (s : list A) : Z := Z.of_nat (length s).

(** [s * n]: repetition; a count below one gives the empty string.  Python
    takes the count as a [Py_ssize_t] and raises [OverflowError] outside of
    it; the properties stated for arbitrary counts assume [ssize_t]. *)
Definition str_mul (s : pystr) (n : Z) : pystr := concat (repeat s (Z.to_nat n)).

(** [s.rjust(width, fill)].  Like [ljust] and [center] below, Python takes
    the width as a [Py_ssize_t] and raises [OverflowError] outside of it; the
    properties stated for arbitrary widths assume [ssize_t]. *)
Definition rjust (s : pystr) (width : Z) (fill : pychar) : pystr :=
  if len s >=? width then s
  else repeat fill (Z.to_nat (width - len s)) ++ s.

(** [s.ljust(width, fill)] *)
Definition ljust (s : pystr) (width : Z) (fill : pychar) : pystr :=
  if len s >=? width then s
  else s ++ repeat fill (Z.to_nat (width - len s)).

(** [s.center(width, fill)], as CPython computes it:
    [marg = width - len; left = marg / 2 + (marg & width & 1)]
    and the remaining [marg - left] fill characters go to the right. *)
Definition center (s : pystr) (width : Z) (fill : pychar) : pystr :=
  if len s >=? width then s
  else
    let marg := width - len s in
    let left := marg / 2 + Z.land (Z.land marg width) 1 in
    repeat fill (Z.to_nat left) ++ s ++ repeat fill (Z.to_nat (marg - left)).

(** [s[:-1]] *)
Definition drop_last (s : pystr) : pystr := removelast s.

(** [s.startswith(p)] *)
Fixpoint startswith (p s : pystr) : bool :=
  match p, s with
  | [], _ => true
  | _ :: _, [] => false
  | a :: p', b :: s' => N.eqb a b && startswith p' s'
  end.

(** [s.replace(old, new)]: the occurrences of [old] are replaced from left
    to right without overlap.  [skip] counts the characters of [s] still
    covered by the occurrence that was just replaced. *)
Fixpoint replace_from (old new : pystr) (skip : nat) (s : pystr) : pystr :=
  match s with
  | [] => []
  | c :: s' =>
      match skip with
      | S k => replace_from old new k s'
      | O =>
          if startswith old s
          then new ++ replace_from old new (pred (length old)) s'
          else c :: replace_from old new O s'
      end
  end.

Definition replace (s old new : pystr) : pystr :=
  match old with
  | [] => new ++ flat_map (fun c => c :: new) s
  | _ :: _ => replace_from old new O s
  end.

(** [s.split("\n")] *)
Fixpoint split_lines (s : pystr) : list pystr :=
  match s with
  | [] => [[]]
  | c :: s' =>
      if N.eqb c newline then [] :: split_lines s'
      else match split_lines s' with
           | l :: ls => (c :: l) :: ls
           | [] => [[c]]
           end
  end.

(** Source text is written in UTF-8; [utf8] decodes a byte sequence into
    code points so that expected output can be quoted literally. *)
Fixpoint utf8 (bs : list N) : pystr :=
  match bs with
  | [] => []
  | b0 :: t0 =>
      if (b0 <? 128)%N then b0 :: utf8 t0
      else
        match t0 with
        | [] => []
        | b1 :: t1 =>
            if (b0 <? 224)%N
            then ((b0 mod 32) * 64 + b1 mod 64)%N :: utf8 t1
            else
              match t1 with
              | [] => []
              | b2 :: t2 =>
                  if (b0 <? 240)%N
                  then ((b0 mod 16) * 4096 + (b1 mod 64) * 64 + b2 mod 64)%N
                         :: utf8 t2
                  else
                    match t2 with
                    | [] => []
                    | b3 :: t3 =>
                        ((b0 mod 8) * 262144 + (b1 mod 64) * 4096
                         + (b2 mod 64) * 64 + b3 mod 64)%N :: utf8 t3
                    end
              end
        end
  end.

Definition lit (s : string) : pystr :=
  utf8 (map N_of_ascii (list_ascii_of_string s)).

(** ** Exceptions *)

Inductive exn : Type := IndexError | ValueError.

Inductive result (A : Type) : Type :=
| Ok (a : A)
| Raise (e : exn).
Arguments Ok {A} a.
Arguments Raise {A} e.

Definition bind {A B : Type} (m : result A) (k : A -> result B) : result B :=
  match m with
  | Ok a => k a
  | Raise e => Raise e
  end.

Notation "x <- m ;; k" := (bind m (fun x => k))
  (at level 61, m at next level, right associativity).

(** A list comprehension whose element expression may raise. *)
Fixpoint mapM {A B : Type} (f : A -> result B) (l : list A) : result (list B) :=
  match l with
  | [] => Ok []
  | a :: l' => b <- f a ;; bs <- mapM f l' ;; Ok (b :: bs)
  end.

(** [l[i]] for an index [i >= 0] *)
Definition getitem {A : Type} (l : list A) (i : nat) : result A :=
  match nth_error l i with
  | Some a => Ok a
  | None => Raise IndexError
  end.

(** [max(iterable)] *)
Definition py_max (l : list Z) : result Z :=
  match l with
  | [] => Raise ValueError
  | x :: l' => Ok (fold_left Z.max l' x)
  end.

(** ** The border glyphs *)

Record Border : Type := mkBorder {
  h : pystr; v : pystr;
  tl : pystr; tc : pystr; tr : pystr;
  ml : pystr; mc : pystr; mr : pystr;
  bl : pystr; bc : pystr; br : pystr
}.

Definition border : Border :=
  {| h := [0x2500%N]; v := [0x2502%N];
     tl := [0x250C%N]; tc := [0x252C%N]; tr := [0x2510%N];
     ml := [0x251C%N]; mc := [0x253C%N]; mr := [0x2524%N];
     bl := [0x2514%N]; bc := [0x2534%N]; br := [0x2518%N] |}.

(** ** The line builders *)

(** [int(extra_spaces/2)]: true division followed by truncation towards
    zero.  The division is done on doubles: it gives this quotient as long as
    [extra_spaces] is at most [2^53] in absolute value, is rounded above, and
    raises [OverflowError] beyond the doubles; the properties stated for
    arbitrary [extra_spaces] assume [exact_half]. *)
Definition int_half (extra_spaces : Z) : Z := Z.quot extra_spaces 2.

(** [paddedWord] returns a string on the arguments of [padding_in_range]; on
    widths beyond them Python raises [OverflowError] in the division or in the
    string methods, which the properties of [paddedWord] stated for arbitrary
    widths therefore exclude. *)
Definition paddedWord (word : pystr) (max_length : Z) (centered : bool)
    (extra_spaces : Z) : pystr :=
  let total_length := max_length + extra_spaces in
  if centered then center word total_length space
  else
    let _word := rjust word (Z.min (int_half extra_spaces + len word) total_length) space in
    ljust _word total_length space.

Definition firstLine (col_lengths : list Z) (b : Border) (extra_spaces : Z) : pystr :=
  if len col_lengths <? 1 then []
  else
    let _line :=
      fold_left (fun _line col_length =>
                   (_line ++ str_mul (h b) (col_length + extra_spaces)) ++ tc b)
                col_lengths (tl b) in
    drop_last _line ++ tr b.

Definition headerBotLine (col_lengths : list Z) (b : Border) (extra_spaces : Z) : pystr :=
  let _line := firstLine col_lengths b extra_spaces in
  let _line := replace _line (tl b) (ml b) in
  let _line := replace _line (tc b) (mc b) in
  let _line := replace _line (tr b) (mr b) in
  _line.

Definition lastLine (col_lengths : list Z) (b : Border) (extra_spaces : Z) : pystr :=
  let _line := firstLine col_lengths b extra_spaces in
  let _line := replace _line (tl b) (bl b) in
  let _line := replace _line (tc b) (bc b) in
  let _line := replace _line (tr b) (br b) in
  _line.

(** The loop of [wordsLine] over [enumerate(col_lengths)], started at index
    [i] with the line built so far. *)
Fixpoint wordsLine_loop (b : Border) (words : list pystr) (centered : bool)
    (extra_spaces : Z) (i : nat) (col_lengths : list Z) (_line : pystr)
    : result pystr :=
  match col_lengths with
  | [] => Ok _line
  | col_length :: rest =>
      word <- getitem words i ;;
      wordsLine_loop b words centered extra_spaces (S i) rest
        ((_line ++ paddedWord word col_length centered extra_spaces) ++ v b)
  end.

Definition wordsLine (col_lengths : list Z) (b : Border) (words : list pystr)
    (centered : bool) (extra_spaces : Z) : result pystr :=
  if len col_lengths <? 1 then Ok []
  else wordsLine_loop b words centered extra_spaces 0 col_lengths (v b).

Section Renderer.

(** Cells are arbitrary objects; [str] is their conversion to text. *)
Variable Any : Type.
Variable str : Any -> pystr.

Definition createHeaderLines (labels : list Any) (col_lengths : list Z)
    (b : Border) (centered : bool) (extra_spaces : Z) : result pystr :=
  let words := map str labels in
  l <- wordsLine col_lengths b words centered extra_spaces ;;
  let _lines := l ++ [newline] in
  let _lines := _lines ++ (headerBotLine col_lengths b extra_spaces ++ [newline]) in
  Ok _lines.

Fixpoint createWordsLines_loop (col_lengths : list Z) (b : Border)
    (centered : bool) (extra_spaces : Z) (wordsTable : list (list Any))
    (_lines : pystr) : result pystr :=
  match wordsTable with
  | [] => Ok _lines
  | row :: rest =>
      let words := map str row in
      l <- wordsLine col_lengths b words centered extra_spaces ;;
      createWordsLines_loop col_lengths b centered extra_spaces rest
        ((_lines ++ l) ++ [newline])
  end.

Definition createWordsLines (wordsTable : list (list Any)) (col_lengths : list Z)
    (b : Border) (centered : bool) (extra_spaces : Z) : result pystr :=
  createWordsLines_loop col_lengths b centered extra_spaces wordsTable [].

(** Lines 13 to 18 of [make_table]: the column width table. *)
Definition col_lengths_of (rows : list (list Any)) (labels : option (list Any))
    : result (list Z) :=
  row0 <- getitem rows 0 ;;
  let MAX_COLUMNS := length row0 in
  COL_LENGTHS <-
    mapM (fun i =>
            ls <- mapM (fun row => c <- getitem row i ;; Ok (len (str c))) rows ;;
            py_max ls)
         (seq 0 MAX_COLUMNS) ;;
  let labels_length :=
    match labels with
    | Some ls => map (fun l => len (str l)) ls
    | None => repeat 0 MAX_COLUMNS
    end in
  mapM (fun i =>
          c <- getitem COL_LENGTHS i ;;
          l <- getitem labels_length i ;;
          Ok (Z.max c l))
       (seq 0 MAX_COLUMNS).

Definition make_table (rows : list (list Any)) (labels : option (list Any))
    (centered : bool) : result pystr :=
  let EXTRA_SPACES := 2 in
  COL_LENGTHS <- col_lengths_of rows labels ;;
  let _table := firstLine COL_LENGTHS border EXTRA_SPACES ++ [newline] in
  _table <-
    match labels with
    | Some ls =>
        if len ls >? 0 then
          hd <- createHeaderLines ls COL_LENGTHS border centered EXTRA_SPACES ;;
          Ok (_table ++ hd)
        else Ok _table
    | None => Ok _table
    end ;;
  ws <- createWordsLines rows COL_LENGTHS border centered EXTRA_SPACES ;;
  let _table := _table ++ ws in
  let _table := _table ++ lastLine COL_LENGTHS border EXTRA_SPACES in
  Ok _table.

End Renderer.

Arguments createHeaderLines {Any} str labels col_lengths b centered extra_spaces.
Arguments createWordsLines {Any} str wordsTable col_lengths b centered extra_spaces.
Arguments createWordsLines_loop {Any} str col_lengths b centered extra_spaces wordsTable _lines.
Arguments col_lengths_of {Any} str rows labels.
Arguments make_table {Any} str rows labels centered.

(** A table of strings: [str] of a [str] is the string itself. *)
Definition str_id (s : pystr) : pystr := s.

(** ** Notions used to state the properties *)

Definition single_line (s : pystr) : Prop := Forall (fun c => c <> newline) s.

(** The text made of the lines [above], each followed by a newline, and then
    of [bottom]. *)
Definition emit (above : list pystr) (bottom : pystr) : pystr :=
  flat_map (fun l => l ++ [newline]) above ++ bottom.

(** Replacing one character by another is a character-wise substitution. *)
Definition subst_char (a b c : pychar) : pychar := if N.eqb a c then b else c.

(** What the loop of [firstLine] appends for the columns [cols]. *)
Definition segments (b : Border) (extra_spaces : Z) (cols : list Z) : pystr :=
  flat_map (fun c => str_mul (h b) (c + extra_spaces) ++ tc b) cols.

(** The sum of the widths of the cells and of the bars between them. *)
Definition inner_width (es : Z) (cols : list Z) : Z :=
  fold_right (fun c acc => Z.max 0 (c + es) + 1 + acc) 0 cols.

(** What the loop of [wordsLine] appends for the columns [cols] and the
    words [words], taken pairwise. *)
Definition cells (b : Border) (centered : bool) (es : Z)
    (cols : list Z) (words : list pystr) : pystr :=
  flat_map (fun cw => paddedWord (snd cw) (fst cw) centered es ++ v b)
           (combine cols words).

Definition content_line (b : Border) (centered : bool) (es : Z)
    (cols : list Z) (words : list pystr) : pystr :=
  match cols with
  | [] => []
  | _ :: _ => v b ++ cells b centered es cols words
  end.

(** Every word is at most as long as its column is wide. *)
Definition fits (cols : list Z) (words : list pystr) : Prop :=
  Forall2 (fun c w => len w <= c) cols words.

Section Notions.

Variable Any : Type.
Variable str : Any -> pystr.

(** The number of columns, read from the first row. *)
Definition columns (rows : list (list Any)) : nat := length (hd [] rows).

(** The length of the text of cell [i] of a row (or of the labels). *)
Definition cell_len (row : list Any) (i : nat) : Z :=
  match nth_error row i with
  | Some c => len (str c)
  | None => 0
  end.

(** The width of column [i] as the specification words it: the largest
    length of a cell of the column, and of the label when labels are given. *)
Definition column_width (rows : list (list Any)) (labels : option (list Any))
    (i : nat) : Z :=
  let w := fold_right Z.max 0 (map (fun row => cell_len row i) rows) in
  match labels with
  | Some ls => Z.max w (cell_len ls i)
  | None => w
  end.

Definition widths (rows : list (list Any)) (labels : option (list Any)) : list Z :=
  map (column_width rows labels) (seq 0 (columns rows)).

(** Every row has a cell in each of the first [n] columns. *)
Definition covers (n : nat) (rows : list (list Any)) : Prop :=
  Forall (fun row => (n <= length row)%nat) rows.

Definition labels_cover (n : nat) (labels : option (list Any)) : Prop :=
  match labels with
  | Some ls => (n <= length ls)%nat
  | None => True
  end.

(** Inputs within the contract of [make_table]. *)
Definition rectangular (rows : list (list Any)) : Prop :=
  rows <> [] /\ Forall (fun row => length row = columns rows) rows.

Definition matching_labels (rows : list (list Any)) (labels : option (list Any)) : Prop :=
  match labels with
  | Some ls => length ls = columns rows
  | None => True
  end.

(** Every value has a single-line representation (via [str]). *)
Definition printable (values : list Any) : Prop :=
  Forall (fun c => single_line (str c)) values.

Definition printable_table (rows : list (list Any)) (labels : option (list Any)) : Prop :=
  Forall printable rows /\
  match labels with
  | Some ls => printable ls
  | None => True
  end.

(** The lines of a table, from the top border down to the last data row. *)
Definition header_lines (cl : list Z) (labels : option (list Any)) (centered : bool)
    : list pystr :=
  match labels with
  | Some ((_ :: _) as ls) =>
      [content_line border centered 2 cl (map str ls); headerBotLine cl border 2]
  | _ => []
  end.

Definition row_lines (cl : list Z) (rows : list (list Any)) (centered : bool)
    : list pystr :=
  map (fun row => content_line border centered 2 cl (map str row)) rows.

Definition lines_above (rows : list (list Any)) (labels : option (list Any))
    (centered : bool) : list pystr :=
  let cl := widths rows labels in
  firstLine cl border 2 :: header_lines cl labels centered ++ row_lines cl rows centered.

Definition bottom_line (rows : list (list Any)) (labels : option (list Any)) : pystr :=
  lastLine (widths rows labels) border 2.

(** The number of header lines: none without labels or with empty labels. *)
Definition header_count (labels : option (list Any)) : nat :=
  match labels with
  | Some (_ :: _) => 2
  | _ => 0
  end.

End Notions.

Arguments columns {Any} rows.
Arguments cell_len {Any} str row i.
Arguments column_width {Any} str rows labels i.
Arguments widths {Any} str rows labels.
Arguments covers {Any} n rows.
Arguments labels_cover {Any} n labels.
Arguments rectangular {Any} rows.
Arguments matching_labels {Any} rows labels.
Arguments printable {Any} str values.
Arguments printable_table {Any} str rows labels.
Arguments header_lines {Any} str cl labels centered.
Arguments row_lines {Any} str cl rows centered.
Arguments lines_above {Any} str rows labels centered.
Arguments bottom_line {Any} str rows labels.
Arguments header_count {Any} labels.

(** Sample tables. *)
Definition sample_rows : list (list pystr) :=
  [[lit "a"; lit "bb"]; [lit "ccc"; lit "d"]].

Definition sample_labels : option (list pystr) := Some [lit "X"; lit "Y"].

(** The integers a [Py_ssize_t] holds: the widths and the counts that the
    string operations accept. *)
Definition ssize_t (n : Z) : Prop := - 2 ^ 63 <= n < 2 ^ 63.

(** The integers that the float division of [int(n/2)] halves exactly. *)
Definition exact_half (n : Z) : Prop := Z.abs n <= 2 ^ 53.

(** The arguments on which [paddedWord] runs within these limits: the target
    width is a [Py_ssize_t] and, when [extra_spaces] is halved (without
    [centered]), it is halved exactly. *)
Definition padding_in_range (max_length : Z) (centered : bool) (extra_spaces : Z)
    : Prop :=
  ssize_t (max_length + extra_spaces) /\ (centered = false -> exact_half extra_spaces).

(** [sep.join(parts)] *)
Fixpoint join (sep : pystr) (parts : list pystr) : pystr :=
  match parts with
  | [] => []
  | p :: ps =>
      match ps with
      | [] => p
      | _ :: _ => p ++ sep ++ join sep ps
      end
  end.

(** The shape [make_table] needs: a first row, as many cells in every row as
    in the first one, and as many labels when labels are given. *)
Definition well_shaped {Any : Type} (rows : list (list Any))
    (labels : option (list Any)) : bool :=
  match rows with
  | [] => false
  | row0 :: _ =>
      forallb (fun row => (length row0 <=? length row)%nat) rows
      && match labels with
         | Some ls => (length row0 <=? length ls)%nat
         | None => true
         end
  end.

(** The rows cut down to the cells of the columns of the table. *)
Definition truncate {Any : Type} (rows : list (list Any)) : list (list Any) :=
  map (firstn (columns rows)) rows.

(** [t] occurs in [s]. *)
Definition occurs_in (t s : pystr) : Prop := exists pre post, s = pre ++ t ++ post.

(** A ragged table: the second row is shorter than the first. *)
Definition ragged_rows : list (list pystr) := [[lit "a"; lit "bb"]; [lit "ccc"]].

(** ** Facts about the built-in operations *)

(** The built-in operations on sample strings. *)
Example border_glyphs :
  h border ++ v border ++ tl border ++ tc border ++ tr border ++ ml border
  ++ mc border ++ mr border ++ bl border ++ bc border ++ br border
  = lit "─│┌┬┐├┼┤└┴┘".
Proof. reflexivity. Qed.

Example center_samples :
  center (lit "a") 4 space = lit " a  " /\
  center (lit "ab") 5 space = lit "  ab " /\
  center (lit "ab") 6 space = lit "  ab  " /\
  center (lit "abc") 2 space = lit "abc".
Proof. repeat split. Qed.

Example replace_samples :
  replace (lit "aaa") (lit "aa") (lit "b") = lit "ba" /\
  replace (lit "abc") [] (lit "-") = lit "-a-b-c-" /\
  replace (lit "┌─┬─┐") (lit "┬") (lit "┼") = lit "┌─┼─┐".
Proof. repeat split. Qed.

Example split_lines_samples :
  split_lines (lit "") = [lit ""] /\
  split_lines [newline] = [lit ""; lit ""] /\
  split_lines (lit "a" ++ [newline] ++ lit "b") = [lit "a"; lit "b"].
Proof. repeat split. Qed.

Example paddedWord_samples :
  paddedWord (lit "a") 3 false 2 = lit " a   " /\
  paddedWord (lit "ccc") 3 false 2 = lit " ccc " /\
  paddedWord (lit "a") 3 true 2 = lit "  a  ".
Proof. repeat split. Qed.

Lemma single_line_app (s t : pystr) :
  single_line s -> single_line t -> single_line (s ++ t).
Proof. unfold single_line. intros Hs Ht. apply Forall_app. split; assumption. Qed.

Lemma single_line_repeat (c : pychar) (n : nat) :
  c <> newline -> single_line (repeat c n).
Proof.
  intros Hc. induction n as [|n IH]; simpl; constructor; assumption.
Qed.

Lemma split_lines_single (s : pystr) : single_line s -> split_lines s = [s].
Proof.
  induction 1 as [|c s Hc _ IH]; simpl; [reflexivity|].
  apply N.eqb_neq in Hc. rewrite Hc, IH. reflexivity.
Qed.

Lemma split_lines_cons_line (l rest : pystr) :
  single_line l ->
  split_lines (l ++ newline :: rest) = l :: split_lines rest.
Proof.
  induction 1 as [|c s Hc _ IH]; simpl; [reflexivity|].
  apply N.eqb_neq in Hc. rewrite Hc, IH. reflexivity.
Qed.

Lemma split_lines_emit (above : list pystr) (bottom : pystr) :
  Forall single_line above -> single_line bottom ->
  split_lines (emit above bottom) = above ++ [bottom].
Proof.
  unfold emit. intros Ha Hb. induction Ha as [|l ls Hl _ IH]; simpl.
  - apply split_lines_single; assumption.
  - rewrite <- !app_assoc. simpl. rewrite split_lines_cons_line by assumption.
    rewrite IH. reflexivity.
Qed.

Lemma len_app {A : Type} (s t : list A) : len (s ++ t) = len s + len t.
Proof. unfold len. rewrite length_app. lia. Qed.

Lemma len_repeat {A : Type} (c : A) (n : Z) :
  len (repeat c (Z.to_nat n)) = Z.max 0 n.
Proof. unfold len. rewrite repeat_length. lia. Qed.

Lemma len_nonneg {A : Type} (s : list A) : 0 <= len s.
Proof. unfold len. lia. Qed.

Lemma rjust_len (s : pystr) (w : Z) (c : pychar) : len (rjust s w c) = Z.max (len s) w.
Proof.
  unfold rjust. destruct (Z.geb_spec (len s) w); [lia|].
  rewrite len_app, len_repeat. lia.
Qed.

Lemma ljust_len (s : pystr) (w : Z) (c : pychar) : len (ljust s w c) = Z.max (len s) w.
Proof.
  unfold ljust. destruct (Z.geb_spec (len s) w); [lia|].
  rewrite len_app, len_repeat. lia.
Qed.

Lemma land_1 (a : Z) : Z.land a 1 = a mod 2.
Proof. exact (Z.land_ones a 1 ltac:(lia)). Qed.

(** The correction term [marg & width & 1] of [center] is one exactly when
    both the margin and the width are odd. *)
Lemma land_land_1 (a b : Z) :
  Z.land (Z.land a b) 1 = if Z.odd a && Z.odd b then 1 else 0.
Proof.
  rewrite land_1, <- Z.bit0_mod, Z.land_spec, !Z.bit0_odd.
  destruct (Z.odd a), (Z.odd b); reflexivity.
Qed.

Lemma odd_mod2 (a : Z) : a mod 2 = if Z.odd a then 1 else 0.
Proof. rewrite <- Z.bit0_mod, Z.bit0_odd. destruct (Z.odd a); reflexivity. Qed.

Lemma center_len (s : pystr) (w : Z) (c : pychar) : len (center s w c) = Z.max (len s) w.
Proof.
  unfold center. destruct (Z.geb_spec (len s) w); [lia|].
  rewrite land_land_1.
  pose proof (Z.div_mod (w - len s) 2 ltac:(lia)) as Hdm.
  pose proof (odd_mod2 (w - len s)) as Hm.
  rewrite !len_app, !len_repeat.
  destruct (Z.odd (w - len s)), (Z.odd w); simpl; lia.
Qed.

Lemma paddedWord_len (word : pystr) (max_length : Z) (centered : bool) (extra_spaces : Z) :
  len (paddedWord word max_length centered extra_spaces)
  = Z.max (len word) (max_length + extra_spaces).
Proof.
  unfold paddedWord. destruct centered.
  - apply center_len.
  - rewrite ljust_len, rjust_len. lia.
Qed.

Lemma rjust_single_line (s : pystr) (w : Z) :
  single_line s -> single_line (rjust s w space).
Proof.
  intros Hs. unfold rjust. destruct (len s >=? w); [assumption|].
  apply single_line_app; [apply single_line_repeat; discriminate | assumption].
Qed.

Lemma ljust_single_line (s : pystr) (w : Z) :
  single_line s -> single_line (ljust s w space).
Proof.
  intros Hs. unfold ljust. destruct (len s >=? w); [assumption|].
  apply single_line_app; [assumption | apply single_line_repeat; discriminate].
Qed.

Lemma center_single_line (s : pystr) (w : Z) :
  single_line s -> single_line (center s w space).
Proof.
  intros Hs. unfold center. destruct (len s >=? w); [assumption|].
  repeat apply single_line_app; try assumption; apply single_line_repeat; discriminate.
Qed.

Lemma paddedWord_single_line (word : pystr) (max_length : Z) (centered : bool)
    (extra_spaces : Z) :
  single_line word -> single_line (paddedWord word max_length centered extra_spaces).
Proof.
  intros Hw. unfold paddedWord. destruct centered.
  - apply center_single_line; assumption.
  - apply ljust_single_line, rjust_single_line; assumption.
Qed.

Lemma replace_char (s : pystr) (a b : pychar) :
  replace s [a] [b] = map (subst_char a b) s.
Proof.
  unfold replace. induction s as [|c s IH]; simpl; [reflexivity|].
  unfold subst_char at 1. destruct (N.eqb a c); simpl; rewrite IH; reflexivity.
Qed.

Lemma subst_char_single_line (a b : pychar) (s : pystr) :
  b <> newline -> single_line s -> single_line (map (subst_char a b) s).
Proof.
  intros Hb Hs. induction Hs as [|c s Hc _ IH]; simpl; constructor; [|exact IH].
  unfold subst_char. destruct (N.eqb a c); assumption.
Qed.

Lemma len_map {A B : Type} (f : A -> B) (s : list A) : len (map f s) = len s.
Proof. unfold len. rewrite length_map. reflexivity. Qed.

Lemma str_mul_char (c : pychar) (n : Z) : str_mul [c] n = repeat c (Z.to_nat n).
Proof.
  unfold str_mul. induction (Z.to_nat n) as [|k IH]; simpl; [|rewrite IH]; reflexivity.
Qed.

Lemma len_removelast {A : Type} (s : list A) :
  s <> [] -> len (removelast s) = len s - 1.
Proof.
  unfold len. induction s as [|a s IH]; intros Hs; [contradiction|].
  destruct s as [|a' s]; [reflexivity|].
  change (removelast (a :: a' :: s)) with (a :: removelast (a' :: s)).
  specialize (IH ltac:(discriminate)). simpl length in *. lia.
Qed.

Lemma single_line_removelast (s : pystr) : single_line s -> single_line (removelast s).
Proof.
  induction 1 as [|c s Hc Hs IH]; simpl; [constructor|].
  destruct s; constructor; assumption.
Qed.

Lemma skipn_nth_error {A : Type} (l : list A) (i : nat) (a : A) :
  nth_error l i = Some a -> skipn i l = a :: skipn (S i) l.
Proof.
  revert i. induction l as [|x l IH]; intros [|i] H; simpl in *; try discriminate.
  - injection H as ->. reflexivity.
  - apply IH. assumption.
Qed.

(** ** Closed forms of the line builders *)

Lemma firstLine_fold (b : Border) (es : Z) (cols : list Z) (acc : pystr) :
  fold_left (fun _line col_length => (_line ++ str_mul (h b) (col_length + es)) ++ tc b)
            cols acc
  = acc ++ segments b es cols.
Proof.
  revert acc. induction cols as [|c cols IH]; intros acc; simpl.
  - rewrite app_nil_r. reflexivity.
  - rewrite IH, <- !app_assoc. reflexivity.
Qed.

Lemma len_segments (es : Z) (cols : list Z) :
  len (segments border es cols) = inner_width es cols.
Proof.
  unfold segments. induction cols as [|c cols IH]; [reflexivity|].
  cbn [flat_map].
  change (inner_width es (c :: cols)) with (Z.max 0 (c + es) + 1 + inner_width es cols).
  rewrite <- app_assoc, !len_app, IH. simpl h. rewrite str_mul_char, len_repeat.
  change (len (tc border)) with 1. lia.
Qed.

Lemma single_line_segments (es : Z) (cols : list Z) :
  single_line (segments border es cols).
Proof.
  unfold segments. induction cols as [|c cols IH]; [constructor|].
  cbn [flat_map].
  repeat apply single_line_app; try exact IH.
  - simpl h. rewrite str_mul_char. apply single_line_repeat. discriminate.
  - repeat constructor. discriminate.
Qed.

Lemma firstLine_nil (b : Border) (es : Z) : firstLine [] b es = [].
Proof. reflexivity. Qed.

Lemma firstLine_cons (b : Border) (es : Z) (c : Z) (cols : list Z) :
  firstLine (c :: cols) b es
  = drop_last (tl b ++ segments b es (c :: cols)) ++ tr b.
Proof.
  unfold firstLine.
  replace (len (c :: cols) <? 1) with false
    by (symmetry; apply Z.ltb_ge; unfold len; simpl; lia).
  rewrite firstLine_fold. reflexivity.
Qed.

Lemma len_firstLine (es : Z) (c : Z) (cols : list Z) :
  len (firstLine (c :: cols) border es) = 1 + inner_width es (c :: cols).
Proof.
  rewrite firstLine_cons. unfold drop_last.
  rewrite len_app, len_removelast by discriminate.
  rewrite len_app, len_segments. unfold len. simpl length. lia.
Qed.

Lemma single_line_firstLine (es : Z) (cols : list Z) :
  single_line (firstLine cols border es).
Proof.
  destruct cols as [|c cols]; [constructor|].
  rewrite firstLine_cons. apply single_line_app.
  - apply single_line_removelast, single_line_app.
    + repeat constructor. discriminate.
    + apply single_line_segments.
  - repeat constructor. discriminate.
Qed.

Lemma headerBotLine_map (es : Z) (cols : list Z) :
  headerBotLine cols border es
  = map (subst_char 0x2510%N 0x2524%N)
      (map (subst_char 0x252C%N 0x253C%N)
         (map (subst_char 0x250C%N 0x251C%N) (firstLine cols border es))).
Proof.
  unfold headerBotLine. cbn [tl tc tr ml mc mr bl bc br border].
  rewrite !replace_char. reflexivity.
Qed.

Lemma lastLine_map (es : Z) (cols : list Z) :
  lastLine cols border es
  = map (subst_char 0x2510%N 0x2518%N)
      (map (subst_char 0x252C%N 0x2534%N)
         (map (subst_char 0x250C%N 0x2514%N) (firstLine cols border es))).
Proof.
  unfold lastLine. cbn [tl tc tr ml mc mr bl bc br border].
  rewrite !replace_char. reflexivity.
Qed.

Lemma len_headerBotLine (es : Z) (cols : list Z) :
  len (headerBotLine cols border es) = len (firstLine cols border es).
Proof. rewrite headerBotLine_map, !len_map. reflexivity. Qed.

Lemma len_lastLine (es : Z) (cols : list Z) :
  len (lastLine cols border es) = len (firstLine cols border es).
Proof. rewrite lastLine_map, !len_map. reflexivity. Qed.

Lemma single_line_headerBotLine (es : Z) (cols : list Z) :
  single_line (headerBotLine cols border es).
Proof.
  rewrite headerBotLine_map.
  repeat (apply subst_char_single_line; [discriminate|]).
  apply single_line_firstLine.
Qed.

Lemma single_line_lastLine (es : Z) (cols : list Z) :
  single_line (lastLine cols border es).
Proof.
  rewrite lastLine_map.
  repeat (apply subst_char_single_line; [discriminate|]).
  apply single_line_firstLine.
Qed.

Lemma wordsLine_loop_ok (b : Border) (words : list pystr) (centered : bool) (es : Z)
    (cols : list Z) :
  forall (i : nat) (line : pystr),
    (i + length cols <= length words)%nat ->
    wordsLine_loop b words centered es i cols line
    = Ok (line ++ cells b centered es cols (skipn i words)).
Proof.
  induction cols as [|c cols IH]; intros i line Hi; simpl.
  - unfold cells. simpl. rewrite app_nil_r. reflexivity.
  - simpl in Hi. unfold getitem.
    destruct (nth_error words i) as [w|] eqn:Hw.
    + simpl. rewrite IH by lia.
      rewrite (skipn_nth_error _ _ _ Hw). unfold cells. simpl.
      rewrite <- !app_assoc. reflexivity.
    + apply nth_error_None in Hw. lia.
Qed.

Lemma wordsLine_ok (b : Border) (words : list pystr) (centered : bool) (es : Z)
    (cols : list Z) :
  (length cols <= length words)%nat ->
  wordsLine cols b words centered es = Ok (content_line b centered es cols words).
Proof.
  intros Hl. unfold wordsLine, content_line. destruct cols as [|c cols]; [reflexivity|].
  replace (len (c :: cols) <? 1) with false
    by (symmetry; apply Z.ltb_ge; unfold len; simpl; lia).
  rewrite wordsLine_loop_ok by (simpl in *; lia). reflexivity.
Qed.

Lemma wordsLine_nil (b : Border) (words : list pystr) (centered : bool) (es : Z) :
  wordsLine [] b words centered es = Ok [].
Proof. reflexivity. Qed.

Lemma len_cells (centered : bool) (es : Z) (cols : list Z) (words : list pystr) :
  0 <= es -> fits cols words ->
  len (cells border centered es cols words) = inner_width es cols.
Proof.
  intros Hes Hf. unfold cells.
  induction Hf as [|c w cols words Hcw _ IH]; [reflexivity|].
  cbn [combine flat_map fst snd].
  change (inner_width es (c :: cols)) with (Z.max 0 (c + es) + 1 + inner_width es cols).
  rewrite <- app_assoc, !len_app, IH, paddedWord_len.
  pose proof (len_nonneg w). change (len (v border)) with 1. lia.
Qed.

Lemma len_content_line (centered : bool) (es : Z) (cols : list Z) (words : list pystr) :
  0 <= es -> fits cols words ->
  len (content_line border centered es cols words) = len (firstLine cols border es).
Proof.
  intros Hes Hf. destruct cols as [|c cols]; [reflexivity|].
  rewrite len_firstLine. unfold content_line.
  rewrite len_app, len_cells by assumption. reflexivity.
Qed.

Lemma single_line_cells (centered : bool) (es : Z) (cols : list Z) (words : list pystr) :
  Forall single_line words -> single_line (cells border centered es cols words).
Proof.
  intros Hw. unfold cells. revert cols.
  induction Hw as [|w words Hs _ IH]; intros [|c cols]; try constructor.
  cbn [combine flat_map fst snd].
  rewrite <- app_assoc. repeat apply single_line_app.
  - apply paddedWord_single_line; assumption.
  - repeat constructor. discriminate.
  - apply IH.
Qed.

Lemma single_line_content_line (centered : bool) (es : Z) (cols : list Z)
    (words : list pystr) :
  Forall single_line words -> single_line (content_line border centered es cols words).
Proof.
  intros Hw. destruct cols as [|c cols]; [constructor|].
  unfold content_line. apply single_line_app.
  - repeat constructor. discriminate.
  - apply single_line_cells; assumption.
Qed.

(** ** Facts about the exception monad *)

Lemma mapM_ok {A B : Type} (f : A -> result B) (g : A -> B) (l : list A) :
  Forall (fun a => f a = Ok (g a)) l -> mapM f l = Ok (map g l).
Proof.
  induction 1 as [|a l Ha _ IH]; simpl; [reflexivity|].
  rewrite Ha. simpl. rewrite IH. reflexivity.
Qed.

Lemma mapM_length {A B : Type} (f : A -> result B) (l : list A) (bs : list B) :
  mapM f l = Ok bs -> length bs = length l.
Proof.
  revert bs. induction l as [|a l IH]; simpl; intros bs H.
  - injection H as <-. reflexivity.
  - destruct (f a) as [b|e]; simpl in H; [|discriminate].
    destruct (mapM f l) as [bs'|e]; simpl in H; [|discriminate].
    injection H as <-. simpl. rewrite (IH bs' eq_refl). reflexivity.
Qed.

(** A comprehension raises only what its element expression raises. *)
Lemma mapM_raises {A B : Type} (f : A -> result B) (l : list A) (e : exn) :
  mapM f l = Raise e -> exists a, In a l /\ f a = Raise e.
Proof.
  induction l as [|a l IH]; simpl; intros H; [discriminate|].
  destruct (f a) as [b|e'] eqn:Hf; simpl in H.
  - destruct (mapM f l) as [bs'|e'']; simpl in H; [discriminate|].
    injection H as ->. destruct (IH eq_refl) as (a' & Hin & Ha').
    exists a'. split; [right|]; assumption.
  - injection H as ->. exists a. split; [left; reflexivity | assumption].
Qed.

Lemma fold_left_max (l : list Z) (x : Z) :
  0 <= x -> fold_left Z.max l x = Z.max x (fold_right Z.max 0 l).
Proof.
  revert x. induction l as [|a l IH]; intros x Hx; simpl; [lia|].
  rewrite IH by lia. lia.
Qed.

Lemma fold_right_max_nonneg (l : list Z) : 0 <= fold_right Z.max 0 l.
Proof. induction l as [|a l IH]; simpl; lia. Qed.

Lemma fold_right_max_ge (l : list Z) (x : Z) : In x l -> x <= fold_right Z.max 0 l.
Proof.
  induction l as [|a l IH]; simpl; intros H; [contradiction|].
  destruct H as [->|H]; [lia|]. specialize (IH H). lia.
Qed.

(** ** The column width table *)

Section Widths.

Variable Any : Type.
Variable str : Any -> pystr.

Lemma column_cells_ok (rows : list (list Any)) (n i : nat) :
  covers n rows -> (i < n)%nat ->
  mapM (fun row => c <- getitem row i ;; Ok (len (str c))) rows
  = Ok (map (fun row => cell_len str row i) rows).
Proof.
  intros Hc Hi. apply mapM_ok. eapply Forall_impl; [|exact Hc].
  intros row Hrow. cbv beta in Hrow. unfold getitem, cell_len.
  destruct (nth_error row i) eqn:E; [reflexivity|].
  apply nth_error_None in E. lia.
Qed.

Lemma col_lengths_of_ok (rows : list (list Any)) (labels : option (list Any)) :
  rows <> [] -> covers (columns rows) rows -> labels_cover (columns rows) labels ->
  col_lengths_of str rows labels = Ok (widths str rows labels).
Proof.
  intros Hne Hc Hl. unfold col_lengths_of, widths.
  destruct rows as [|row0 rest]; [contradiction|].
  unfold columns in *. cbn [getitem nth_error hd bind] in *.
  set (n := length row0) in *. set (rows := row0 :: rest) in *.
  rewrite (mapM_ok _ (fun i => fold_right Z.max 0 (map (fun row => cell_len str row i) rows))).
  2:{ apply Forall_forall. intros i Hi. apply in_seq in Hi.
      rewrite (column_cells_ok rows n i) by (assumption || lia).
      cbn [bind]. unfold rows at 1. cbn [map py_max]. f_equal.
      rewrite fold_left_max by (unfold cell_len; destruct (nth_error row0 i);
                                 [apply len_nonneg | lia]).
      reflexivity. }
  cbn [bind]. apply mapM_ok. apply Forall_forall. intros i Hi. apply in_seq in Hi.
  unfold getitem. rewrite nth_error_map, nth_error_seq.
  replace (i <? n)%nat with true by (symmetry; apply Nat.ltb_lt; lia).
  cbn [option_map bind Nat.add]. unfold column_width.
  destruct labels as [ls|].
  - rewrite nth_error_map. cbn [labels_cover] in Hl.
    assert (E : nth_error ls i = None \/
                exists a, nth_error ls i = Some a /\ cell_len str ls i = len (str a)).
    { unfold cell_len. destruct (nth_error ls i) as [a|]; [right; exists a|left]; auto. }
    destruct E as [E|(a & E & Ea)]; [apply nth_error_None in E; lia|].
    rewrite E, Ea. reflexivity.
  - rewrite nth_error_repeat by lia. cbn [bind]. f_equal.
    pose proof (fold_right_max_nonneg (map (fun row => cell_len str row i) rows)). lia.
Qed.

Lemma length_widths (rows : list (list Any)) (labels : option (list Any)) :
  length (widths str rows labels) = columns rows.
Proof. unfold widths. rewrite length_map, length_seq. reflexivity. Qed.

Lemma nth_error_widths (rows : list (list Any)) (labels : option (list Any)) (i : nat) :
  (i < columns rows)%nat ->
  nth_error (widths str rows labels) i = Some (column_width str rows labels i).
Proof.
  intros Hi. unfold widths. rewrite nth_error_map, nth_error_seq.
  replace (i <? columns rows)%nat with true by (symmetry; apply Nat.ltb_lt; lia).
  reflexivity.
Qed.

Lemma column_width_cell (rows : list (list Any)) (labels : option (list Any))
    (row : list Any) (i : nat) (c : Any) :
  In row rows -> nth_error row i = Some c -> len (str c) <= column_width str rows labels i.
Proof.
  intros Hin Hc.
  assert (H : len (str c) <= fold_right Z.max 0 (map (fun row => cell_len str row i) rows)).
  { apply fold_right_max_ge. apply in_map_iff. exists row. split; [|assumption].
    unfold cell_len. rewrite Hc. reflexivity. }
  unfold column_width. destruct labels; lia.
Qed.

Lemma column_width_label (rows : list (list Any)) (ls : list Any) (i : nat) (c : Any) :
  nth_error ls i = Some c -> len (str c) <= column_width str rows (Some ls) i.
Proof. intros Hc. unfold column_width, cell_len. rewrite Hc. lia. Qed.

Lemma fits_from (W : nat -> Z) (row : list Any) :
  forall k : nat,
    (forall j c, nth_error row j = Some c -> len (str c) <= W (k + j)%nat) ->
    fits (map W (seq k (length row))) (map str row).
Proof.
  induction row as [|c row IH]; intros k H; simpl; [constructor|].
  constructor.
  - specialize (H 0%nat c eq_refl). rewrite Nat.add_0_r in H. exact H.
  - apply IH. intros j c' Hj. specialize (H (S j) c' Hj).
    rewrite Nat.add_succ_r in H. exact H.
Qed.

Lemma widths_fit_row (rows : list (list Any)) (labels : option (list Any))
    (row : list Any) :
  In row rows -> length row = columns rows ->
  fits (widths str rows labels) (map str row).
Proof.
  intros Hin Hlen. unfold widths. rewrite <- Hlen. apply fits_from.
  intros j c Hj. simpl. eapply column_width_cell; eassumption.
Qed.

Lemma widths_fit_labels (rows : list (list Any)) (ls : list Any) :
  length ls = columns rows ->
  fits (widths str rows (Some ls)) (map str ls).
Proof.
  intros Hlen. unfold widths. rewrite <- Hlen. apply fits_from.
  intros j c Hj. simpl. apply column_width_label. assumption.
Qed.

End Widths.

(** ** The shape of the rendered table *)

Section Table.

Variable Any : Type.
Variable str : Any -> pystr.

Lemma createWordsLines_loop_ok (cl : list Z) (b : Border) (centered : bool) (es : Z)
    (rows : list (list Any)) :
  forall acc : pystr,
    covers (length cl) rows ->
    createWordsLines_loop str cl b centered es rows acc
    = Ok (acc ++ flat_map (fun l => l ++ [newline])
                   (map (fun row => content_line b centered es cl (map str row)) rows)).
Proof.
  induction rows as [|row rows IH]; intros acc Hc; simpl.
  - rewrite app_nil_r. reflexivity.
  - inversion Hc as [|? ? Hrow Hrest]; subst.
    rewrite wordsLine_ok by (rewrite length_map; exact Hrow).
    cbn [bind]. rewrite IH by assumption. rewrite <- !app_assoc. reflexivity.
Qed.

Lemma createHeaderLines_ok (cl : list Z) (b : Border) (centered : bool) (es : Z)
    (ls : list Any) :
  (length cl <= length ls)%nat ->
  createHeaderLines str ls cl b centered es
  = Ok (flat_map (fun l => l ++ [newline])
          [content_line b centered es cl (map str ls); headerBotLine cl b es]).
Proof.
  intros Hl. unfold createHeaderLines.
  rewrite wordsLine_ok by (rewrite length_map; exact Hl).
  cbn [bind flat_map]. rewrite app_nil_r. reflexivity.
Qed.

(** On an input whose rows and labels reach every column, [make_table]
    returns the lines above the bottom border, each followed by a newline,
    and then the bottom border. *)
Lemma make_table_ok (rows : list (list Any)) (labels : option (list Any))
    (centered : bool) :
  rows <> [] -> covers (columns rows) rows -> labels_cover (columns rows) labels ->
  make_table str rows labels centered
  = Ok (emit (lines_above str rows labels centered) (bottom_line str rows labels)).
Proof.
  intros Hne Hc Hl. unfold make_table.
  rewrite col_lengths_of_ok by assumption. cbn [bind].
  unfold createWordsLines.
  rewrite createWordsLines_loop_ok by (rewrite length_widths; exact Hc).
  unfold emit, lines_above, bottom_line, row_lines. cbn [flat_map app].
  rewrite flat_map_app.
  destruct labels as [[|l ls]|]; cbn [header_lines].
  - cbn [len length Z.of_nat Z.gtb Z.compare bind flat_map app].
    rewrite <- !app_assoc. reflexivity.
  - replace (len (l :: ls) >? 0) with true
      by (symmetry; apply Z.gtb_lt; unfold len; simpl length; lia).
    rewrite createHeaderLines_ok by (rewrite length_widths; exact Hl).
    cbn [bind]. rewrite <- !app_assoc. reflexivity.
  - cbn [bind flat_map app]. rewrite <- !app_assoc. reflexivity.
Qed.

Lemma rectangular_covers (rows : list (list Any)) :
  rectangular rows -> covers (columns rows) rows.
Proof.
  intros [_ H]. unfold covers. eapply Forall_impl; [|exact H].
  intros row Hr. cbv beta in Hr. lia.
Qed.

Lemma matching_labels_cover (rows : list (list Any)) (labels : option (list Any)) :
  matching_labels rows labels -> labels_cover (columns rows) labels.
Proof. destruct labels; simpl; lia. Qed.

Lemma header_lines_single (cl : list Z) (labels : option (list Any)) (centered : bool) :
  match labels with Some ls => printable str ls | None => True end ->
  Forall single_line (header_lines str cl labels centered).
Proof.
  intros Hp. destruct labels as [[|l ls]|]; cbn [header_lines]; try constructor.
  - apply single_line_content_line. apply Forall_map. exact Hp.
  - constructor; [|constructor]. apply single_line_headerBotLine.
Qed.

Lemma row_lines_single (cl : list Z) (rows : list (list Any)) (centered : bool) :
  Forall (printable str) rows -> Forall single_line (row_lines str cl rows centered).
Proof.
  intros Hp. unfold row_lines. apply Forall_map.
  eapply Forall_impl; [|exact Hp]. intros row Hrow.
  apply single_line_content_line. apply Forall_map. exact Hrow.
Qed.

Lemma lines_above_single (rows : list (list Any)) (labels : option (list Any))
    (centered : bool) :
  printable_table str rows labels -> Forall single_line (lines_above str rows labels centered).
Proof.
  intros [Hr Hl]. unfold lines_above. constructor.
  - apply single_line_firstLine.
  - apply Forall_app. split.
    + apply header_lines_single. exact Hl.
    + apply row_lines_single. exact Hr.
Qed.

(** The lines of the rendered table, as [split] finds them. *)
Lemma make_table_lines (rows : list (list Any)) (labels : option (list Any))
    (centered : bool) :
  rectangular rows -> matching_labels rows labels -> printable_table str rows labels ->
  exists out,
    make_table str rows labels centered = Ok out /\
    split_lines out = lines_above str rows labels centered ++ [bottom_line str rows labels].
Proof.
  intros Hr Hm Hp. eexists. split.
  - apply make_table_ok;
      [apply Hr | apply rectangular_covers, Hr | apply matching_labels_cover, Hm].
  - apply split_lines_emit; [apply lines_above_single, Hp | apply single_line_lastLine].
Qed.

Lemma length_lines_above (rows : list (list Any)) (labels : option (list Any))
    (centered : bool) :
  length (lines_above str rows labels centered)
  = (1 + header_count labels + length rows)%nat.
Proof.
  unfold lines_above, row_lines. cbn [length].
  rewrite length_app, length_map.
  destruct labels as [[|l ls]|]; reflexivity.
Qed.

End Table.

(** ** Lines of equal length *)

Section EqualLength.

Variable Any : Type.
Variable str : Any -> pystr.

Lemma len_header_lines (rows : list (list Any)) (labels : option (list Any))
    (centered : bool) :
  matching_labels rows labels ->
  Forall (fun l => len l = len (firstLine (widths str rows labels) border 2))
         (header_lines str (widths str rows labels) labels centered).
Proof.
  intros Hm. destruct labels as [[|l ls]|]; cbn [header_lines]; try constructor.
  - apply len_content_line; [lia|]. apply widths_fit_labels. exact Hm.
  - constructor; [|constructor]. apply len_headerBotLine.
Qed.

Lemma len_row_lines (rows : list (list Any)) (labels : option (list Any))
    (centered : bool) :
  rectangular rows ->
  Forall (fun l => len l = len (firstLine (widths str rows labels) border 2))
         (row_lines str (widths str rows labels) rows centered).
Proof.
  intros [_ Hr]. unfold row_lines. apply Forall_map. apply Forall_forall.
  intros row Hin. apply len_content_line; [lia|].
  apply widths_fit_row; [exact Hin|].
  exact (proj1 (Forall_forall _ _) Hr row Hin).
Qed.

Lemma len_all_lines (rows : list (list Any)) (labels : option (list Any))
    (centered : bool) :
  rectangular rows -> matching_labels rows labels ->
  Forall (fun l => len l = len (firstLine (widths str rows labels) border 2))
         (lines_above str rows labels centered ++ [bottom_line str rows labels]).
Proof.
  intros Hr Hm. apply Forall_app. split.
  - unfold lines_above. constructor; [reflexivity|].
    apply Forall_app. split; [apply len_header_lines | apply len_row_lines]; assumption.
  - constructor; [|constructor]. apply len_lastLine.
Qed.

End EqualLength.

(** The bottom border of a table with at least one column ends with the
    bottom right corner. *)
Lemma lastLine_ends (es : Z) (c : Z) (cols : list Z) :
  exists s, lastLine (c :: cols) border es = s ++ br border.
Proof.
  rewrite lastLine_map, firstLine_cons. cbn [tr border].
  rewrite !map_app. eexists. reflexivity.
Qed.

Lemma lines_zero_width {A : Type} (x : A) (l : list A) :
  Forall (eq x) l -> l = repeat x (length l).
Proof.
  induction 1 as [|a l Ha _ IH]; simpl; [reflexivity|].
  rewrite <- Ha, <- IH. reflexivity.
Qed.

Lemma sample_rectangular : rectangular sample_rows.
Proof. split; [discriminate | repeat constructor]. Defined.

Lemma sample_matching : matching_labels sample_rows sample_labels.
Proof. reflexivity. Defined.

Ltac prove_single_line :=
  repeat first [ apply Forall_nil | apply Forall_cons | discriminate ].

Lemma sample_printable : printable_table str_id sample_rows sample_labels.
Proof. split; unfold printable, single_line; vm_compute; prove_single_line. Defined.

(** ** The properties of the specification *)

Section Properties.

Variable Any : Type.
Variable str : Any -> pystr.

(** C1: for non-empty rows of equal length whose values have single-line
    representations, the text returned by [make_table] splits on newline into
    [len(rows) + 2] lines without labels and into [len(rows) + 4] lines with a
    non-empty list of labels of the common row length (empty labels are
    possible only for rows without cells and emit no header). *)
Theorem make_table_line_count (rows : list (list Any)) (labels : option (list Any))
    (centered : bool) :
  rectangular rows -> matching_labels rows labels -> printable_table str rows labels ->
  exists out,
    make_table str rows labels centered = Ok out /\
    length (split_lines out)
    = (length rows + match labels with
                     | None => 2
                     | Some [] => 2
                     | Some (_ :: _) => 4
                     end)%nat.
Proof.
  intros Hr Hm Hp.
  destruct (make_table_lines Any str rows labels centered Hr Hm Hp) as (out & Hout & Hs).
  exists out. split; [exact Hout|].
  rewrite Hs, length_app, length_lines_above. cbn [length].
  destruct labels as [[|l ls]|]; cbn [header_count]; lia.
Qed.

(** C2, as amended: the returned text consists of between [N + 2] and
    [N + 4] newline-joined lines, where [N] is the number of rows: exactly
    [N + 2] when no header is emitted (no labels, or empty ones) and exactly
    [N + 4] when the header line and its separator are emitted. *)
Theorem make_table_line_bounds (rows : list (list Any)) (labels : option (list Any))
    (centered : bool) :
  rectangular rows -> matching_labels rows labels -> printable_table str rows labels ->
  exists out,
    make_table str rows labels centered = Ok out /\
    (length rows + 2 <= length (split_lines out) <= length rows + 4)%nat /\
    (header_count labels = 0%nat ->
     length (split_lines out) = (length rows + 2)%nat) /\
    (header_count labels = 2%nat ->
     length (split_lines out) = (length rows + 4)%nat) /\
    (header_count labels = 0%nat \/ header_count labels = 2%nat).
Proof.
  intros Hr Hm Hp.
  destruct (make_table_lines Any str rows labels centered Hr Hm Hp) as (out & Hout & Hs).
  exists out. split; [exact Hout|].
  rewrite Hs, length_app, length_lines_above. cbn [length].
  destruct labels as [[|l ls]|]; cbn [header_count];
    repeat split; try lia; try discriminate; auto.
Qed.

(** C5: on non-empty rectangular rows (with labels, if any, of the common
    row length) the width computed for column [i] is the largest length of
    the text of a cell of column [i], and of the text of label [i] when labels
    are supplied. *)
Theorem col_lengths_of_column_width (rows : list (list Any)) (labels : option (list Any)) :
  rectangular rows -> matching_labels rows labels ->
  exists cl,
    col_lengths_of str rows labels = Ok cl /\
    length cl = columns rows /\
    forall i, (i < columns rows)%nat ->
      nth_error cl i = Some (column_width str rows labels i).
Proof.
  intros Hr Hm. exists (widths str rows labels). split; [|split].
  - apply col_lengths_of_ok;
      [apply Hr | apply rectangular_covers, Hr | apply matching_labels_cover, Hm].
  - apply length_widths.
  - intros i Hi. apply nth_error_widths. exact Hi.
Qed.

(** C7: all lines of the returned text, borders, header lines and data rows
    alike, have the same number of characters. *)
Theorem make_table_lines_same_length (rows : list (list Any)) (labels : option (list Any))
    (centered : bool) :
  rectangular rows -> matching_labels rows labels -> printable_table str rows labels ->
  exists out,
    make_table str rows labels centered = Ok out /\
    forall l1 l2, In l1 (split_lines out) -> In l2 (split_lines out) -> len l1 = len l2.
Proof.
  intros Hr Hm Hp.
  destruct (make_table_lines Any str rows labels centered Hr Hm Hp) as (out & Hout & Hs).
  exists out. split; [exact Hout|].
  pose proof (len_all_lines Any str rows labels centered Hr Hm) as Hall.
  rewrite <- Hs in Hall. rewrite Forall_forall in Hall.
  intros l1 l2 H1 H2. rewrite (Hall l1 H1), (Hall l2 H2). reflexivity.
Qed.

(** C8: the returned text is made of the lines above the bottom border, every
    one followed by a newline, and then of the bottom border, which contains
    no newline and after which nothing follows; with at least one column the
    text therefore ends with the bottom right corner. *)
Theorem make_table_newline_placement (rows : list (list Any)) (labels : option (list Any))
    (centered : bool) :
  rectangular rows -> matching_labels rows labels ->
  make_table str rows labels centered
  = Ok (emit (lines_above str rows labels centered) (bottom_line str rows labels))
  /\ length (lines_above str rows labels centered)
     = (1 + header_count labels + length rows)%nat
  /\ single_line (bottom_line str rows labels)
  /\ (columns rows <> 0%nat ->
      exists s, emit (lines_above str rows labels centered) (bottom_line str rows labels)
                = s ++ br border).
Proof.
  intros Hr Hm. split; [|split; [|split]].
  - apply make_table_ok;
      [apply Hr | apply rectangular_covers, Hr | apply matching_labels_cover, Hm].
  - apply length_lines_above.
  - apply single_line_lastLine.
  - intros Hn. unfold emit, bottom_line, widths.
    destruct (columns rows) as [|n]; [contradiction|]. cbn [seq map].
    destruct (lastLine_ends 2 (column_width str rows labels 0)
                (map (column_width str rows labels) (seq 1 n))) as (s & Hs).
    rewrite Hs. eexists. rewrite app_assoc. reflexivity.
Qed.

(** C9: without columns [firstLine] and [wordsLine] return the empty string,
    and [make_table] on rows whose first row has no cell returns a text that
    splits into as many lines, all empty, as a table with columns has. *)
Theorem zero_columns (b : Border) (es : Z) (words : list pystr) (centered : bool)
    (rest : list (list Any)) (labels : option (list Any)) :
  firstLine [] b es = [] /\
  wordsLine [] b words centered es = Ok [] /\
  exists out,
    make_table str ([] :: rest) labels centered = Ok out /\
    split_lines out
    = repeat [] (length ([] :: rest) + match labels with
                                       | Some (_ :: _) => 4
                                       | _ => 2
                                       end)%nat.
Proof.
  split; [reflexivity|]. split; [reflexivity|].
  eexists. split.
  - apply make_table_ok; [discriminate | | destruct labels; cbn; lia].
    apply Forall_forall. intros row _. cbn. lia.
  - assert (Hall : Forall (eq [])
                     (lines_above str ([] :: rest) labels centered
                      ++ [bottom_line str ([] :: rest) labels])).
    { apply Forall_app. split; [|repeat constructor].
      unfold lines_above. change (widths str ([] :: rest) labels) with (@nil Z).
      constructor; [reflexivity|]. apply Forall_app. split.
      - destruct labels as [[|l ls]|]; repeat constructor.
      - unfold row_lines. apply Forall_map. apply Forall_forall. reflexivity. }
    rewrite split_lines_emit.
    + rewrite (lines_zero_width _ _ Hall) at 1. f_equal.
      rewrite length_app, length_lines_above. cbn [length].
      destruct labels as [[|l ls]|]; cbn [header_count]; lia.
    + apply Forall_app in Hall. destruct Hall as [Hall _].
      eapply Forall_impl; [|exact Hall]. intros l <-. constructor.
    + constructor.
Qed.

(** C10: on rows whose first row has at least one cell, empty labels make
    the computation of the column widths fail with an out-of-range index, so
    that [make_table] fails before any line is rendered. *)
Theorem empty_labels_raise (c0 : Any) (row0 : list Any) (rest : list (list Any))
    (centered : bool) :
  col_lengths_of str ((c0 :: row0) :: rest) (Some []) = Raise IndexError /\
  make_table str ((c0 :: row0) :: rest) (Some []) centered = Raise IndexError.
Proof.
  assert (H : col_lengths_of str ((c0 :: row0) :: rest) (Some []) = Raise IndexError).
  { unfold col_lengths_of. cbn [getitem nth_error bind].
    set (rows := (c0 :: row0) :: rest).
    destruct (mapM _ (seq 0 (length (c0 :: row0)))) as [cl|e] eqn:E.
    - apply mapM_length in E. rewrite length_seq in E.
      destruct cl as [|c cl]; [discriminate|]. reflexivity.
    - apply mapM_raises in E. destruct E as (i & _ & Hi).
      destruct (mapM _ rows) as [ls|e'] eqn:E'; cbn [bind] in Hi.
      + apply mapM_length in E'. destruct ls; [discriminate|]. discriminate.
      + injection Hi as ->. apply mapM_raises in E'. destruct E' as (row & _ & Hrow).
        unfold getitem in Hrow. destruct (nth_error row i); cbn [bind] in Hrow.
        * discriminate.
        * injection Hrow as <-. reflexivity. }
  split; [exact H|]. unfold make_table. rewrite H. reflexivity.
Qed.

End Properties.

(** C3, as amended: with [centered] set and a target width of at least the
    length of the word, [paddedWord] puts the word between two runs of
    spaces that fill the target width; the runs are equal when the leftover
    is even, and when it is odd the extra space is on the right for an even
    target width and on the left for an odd one. *)
Theorem paddedWord_centered (word : pystr) (max_length extra_spaces : Z) :
  len word <= max_length + extra_spaces ->
  exists l r : Z,
    0 <= l /\ 0 <= r /\
    l + r = max_length + extra_spaces - len word /\
    paddedWord word max_length true extra_spaces
    = repeat space (Z.to_nat l) ++ word ++ repeat space (Z.to_nat r) /\
    (Z.even (l + r) = true -> l = r) /\
    (Z.odd (l + r) = true -> Z.even (max_length + extra_spaces) = true -> r = l + 1) /\
    (Z.odd (l + r) = true -> Z.odd (max_length + extra_spaces) = true -> l = r + 1).
Proof.
  intros Hw. unfold paddedWord, center.
  set (total := max_length + extra_spaces) in *.
  destruct (Z.geb_spec (len word) total) as [Hge|Hlt].
  - exists 0, 0. replace (total - len word) with 0 by lia.
    cbn [Z.to_nat repeat app]. rewrite app_nil_r.
    repeat split; try lia; discriminate.
  - set (marg := total - len word) in *.
    pose proof (Z.div_mod marg 2 ltac:(lia)) as Hdm.
    pose proof (odd_mod2 marg) as Hm.
    assert (Hmarg : 0 < marg) by (unfold marg; lia).
    exists (marg / 2 + Z.land (Z.land marg total) 1),
           (marg - (marg / 2 + Z.land (Z.land marg total) 1)).
    rewrite land_land_1.
    replace (marg / 2 + (if Z.odd marg && Z.odd total then 1 else 0)
             + (marg - (marg / 2 + (if Z.odd marg && Z.odd total then 1 else 0))))
      with marg by lia.
    rewrite <- (Z.negb_odd marg), <- (Z.negb_odd total).
    destruct (Z.odd marg), (Z.odd total); cbn [andb negb];
      repeat split; try reflexivity; try discriminate; lia.
Qed.

Lemma paddedWord_centered_witness :
  len (lit "a") <= 2 + 2 /\
  exists l r : Z,
    0 <= l /\ 0 <= r /\
    l + r = 2 + 2 - len (lit "a") /\
    paddedWord (lit "a") 2 true 2
    = repeat space (Z.to_nat l) ++ lit "a" ++ repeat space (Z.to_nat r) /\
    (Z.even (l + r) = true -> l = r) /\
    (Z.odd (l + r) = true -> Z.even (2 + 2) = true -> r = l + 1) /\
    (Z.odd (l + r) = true -> Z.odd (2 + 2) = true -> l = r + 1).
Proof.
  split; [discriminate|].
  apply (paddedWord_centered (lit "a") 2 2). discriminate.
Defined.

(** C3 as the specification states it fails: a word of two characters
    centered in a width of five gets its extra space on the left. *)
Lemma paddedWord_centered_extra_left :
  len (lit "ab") <= 3 + 2 /\
  paddedWord (lit "ab") 3 true 2 = lit "  ab " /\
  paddedWord (lit "ab") 3 true 2 <> lit " ab  ".
Proof. split; [discriminate|]. split; [reflexivity | discriminate]. Qed.

(** C4: without [centered], [paddedWord] right-justifies the word to the
    width [min(extra_spaces div 2 + len(word), max_length + extra_spaces)]
    (spaces are put before the word up to that width) and left-justifies the
    result to the width [max_length + extra_spaces] (spaces are put after it
    up to that width).  The widths are those the string methods accept and
    [extra_spaces] one that the division halves exactly. *)
Theorem paddedWord_left_aligned (word : pystr) (max_length extra_spaces : Z) :
  exact_half extra_spaces -> ssize_t (max_length + extra_spaces) ->
  let total := max_length + extra_spaces in
  let width := Z.min (extra_spaces / 2 + len word) total in
  let justified := repeat space (Z.to_nat (width - len word)) ++ word in
  ssize_t width /\
  paddedWord word max_length false extra_spaces
  = justified ++ repeat space (Z.to_nat (total - len justified)).
Proof.
  intros He Ht total width justified. unfold exact_half, ssize_t in *.
  pose proof (len_nonneg word) as Hlen.
  assert (Hd : - 2 ^ 53 <= extra_spaces / 2 <= 2 ^ 53)
    by (Z.to_euclidean_division_equations; lia).
  split; [unfold width, total; lia|].
  assert (Hr : rjust word (Z.min (int_half extra_spaces + len word) total) space
               = justified).
  { unfold justified, width, rjust, int_half.
    destruct (Z.le_gt_cases 0 extra_spaces) as [Hes|Hes].
    - rewrite Z.quot_div_nonneg by lia.
      destruct (Z.geb_spec (len word) (Z.min (extra_spaces / 2 + len word) total));
        [|reflexivity].
      replace (Z.to_nat (Z.min (extra_spaces / 2 + len word) total - len word))
        with 0%nat by lia.
      reflexivity.
    - assert (Hq : Z.quot extra_spaces 2 <= 0)
        by (Z.to_euclidean_division_equations; lia).
      assert (Hf : extra_spaces / 2 <= 0)
        by (Z.to_euclidean_division_equations; lia).
      destruct (Z.geb_spec (len word)
                  (Z.min (Z.quot extra_spaces 2 + len word) total)); [|lia].
      replace (Z.to_nat (Z.min (extra_spaces / 2 + len word) total - len word))
        with 0%nat by lia.
      reflexivity. }
  unfold paddedWord. fold total. rewrite Hr. unfold ljust.
  destruct (Z.geb_spec (len justified) total); [|reflexivity].
  replace (Z.to_nat (total - len justified)) with 0%nat by lia.
  simpl. rewrite app_nil_r. reflexivity.
Qed.

Lemma paddedWord_left_aligned_witness :
  exact_half 2 /\ ssize_t (3 + 2) /\
  ssize_t (Z.min (2 / 2 + len (lit "a")) (3 + 2)) /\
  paddedWord (lit "a") 3 false 2
  = (repeat space (Z.to_nat (Z.min (2 / 2 + len (lit "a")) (3 + 2) - len (lit "a")))
     ++ lit "a")
    ++ repeat space
         (Z.to_nat (3 + 2
                    - len (repeat space
                             (Z.to_nat (Z.min (2 / 2 + len (lit "a")) (3 + 2)
                                        - len (lit "a")))
                           ++ lit "a"))).
Proof.
  assert (He : exact_half 2) by (unfold exact_half; simpl; lia).
  assert (Ht : ssize_t (3 + 2)) by (unfold ssize_t; simpl; lia).
  split; [exact He|]. split; [exact Ht|].
  exact (paddedWord_left_aligned (lit "a") 3 2 He Ht).
Defined.

(** C6: the table of the rows [["a","bb"],["ccc","d"]] without labels and
    without centering has the column widths [3, 2], the top border
    [┌─────┬────┐] and the first data row [│ a   │ bb │]. *)
Theorem make_table_sample :
  col_lengths_of str_id sample_rows None = Ok [3; 2] /\
  exists out,
    make_table str_id sample_rows None false = Ok out /\
    nth_error (split_lines out) 0 = Some (lit "┌─────┬────┐") /\
    nth_error (split_lines out) 1 = Some (lit "│ a   │ bb │").
Proof.
  split; [reflexivity|]. eexists. split; [reflexivity|]. split; reflexivity.
Qed.

(** C2 as the specification states it fails: a table of one row with a
    label has five lines, more than [N + 3]. *)
Lemma make_table_header_exceeds :
  exists out,
    make_table str_id [[lit "a"]] (Some [lit "X"]) false = Ok out /\
    length (split_lines out) = 5%nat /\
    ~ (length [[lit "a"]] + 1 <= length (split_lines out) <= length [[lit "a"]] + 3)%nat.
Proof.
  eexists. split; [reflexivity|]. split; [reflexivity|].
  vm_compute. intros [_ H]. repeat apply le_S_n in H. inversion H.
Qed.

Lemma make_table_line_count_witness :
  rectangular sample_rows /\ matching_labels sample_rows sample_labels /\
  printable_table str_id sample_rows sample_labels /\
  exists out,
    make_table str_id sample_rows sample_labels true = Ok out /\
    length (split_lines out) = 6%nat.
Proof.
  split; [exact sample_rectangular|]. split; [exact sample_matching|].
  split; [exact sample_printable|].
  exact (make_table_line_count pystr str_id sample_rows sample_labels true
           sample_rectangular sample_matching sample_printable).
Defined.

Lemma make_table_line_bounds_witness :
  rectangular sample_rows /\ matching_labels sample_rows sample_labels /\
  printable_table str_id sample_rows sample_labels /\
  exists out,
    make_table str_id sample_rows sample_labels false = Ok out /\
    (2 + 2 <= length (split_lines out) <= 2 + 4)%nat /\
    (header_count sample_labels = 0%nat -> length (split_lines out) = (2 + 2)%nat) /\
    (header_count sample_labels = 2%nat -> length (split_lines out) = (2 + 4)%nat) /\
    (header_count sample_labels = 0%nat \/ header_count sample_labels = 2%nat).
Proof.
  split; [exact sample_rectangular|]. split; [exact sample_matching|].
  split; [exact sample_printable|].
  exact (make_table_line_bounds pystr str_id sample_rows sample_labels false
           sample_rectangular sample_matching sample_printable).
Defined.

Lemma col_lengths_of_column_width_witness :
  rectangular sample_rows /\ matching_labels sample_rows sample_labels /\
  exists cl,
    col_lengths_of str_id sample_rows sample_labels = Ok cl /\
    length cl = 2%nat /\
    forall i, (i < 2)%nat ->
      nth_error cl i = Some (column_width str_id sample_rows sample_labels i).
Proof.
  split; [exact sample_rectangular|]. split; [exact sample_matching|].
  exact (col_lengths_of_column_width pystr str_id sample_rows sample_labels
           sample_rectangular sample_matching).
Defined.

Lemma make_table_lines_same_length_witness :
  rectangular sample_rows /\ matching_labels sample_rows sample_labels /\
  printable_table str_id sample_rows sample_labels /\
  exists out,
    make_table str_id sample_rows sample_labels true = Ok out /\
    forall l1 l2, In l1 (split_lines out) -> In l2 (split_lines out) -> len l1 = len l2.
Proof.
  split; [exact sample_rectangular|]. split; [exact sample_matching|].
  split; [exact sample_printable|].
  exact (make_table_lines_same_length pystr str_id sample_rows sample_labels true
           sample_rectangular sample_matching sample_printable).
Defined.

Lemma make_table_newline_placement_witness :
  rectangular sample_rows /\ matching_labels sample_rows sample_labels /\
  make_table str_id sample_rows sample_labels false
  = Ok (emit (lines_above str_id sample_rows sample_labels false)
             (bottom_line str_id sample_rows sample_labels))
  /\ length (lines_above str_id sample_rows sample_labels false) = 5%nat
  /\ single_line (bottom_line str_id sample_rows sample_labels)
  /\ (columns sample_rows <> 0%nat ->
      exists s, emit (lines_above str_id sample_rows sample_labels false)
                     (bottom_line str_id sample_rows sample_labels)
                = s ++ br border).
Proof.
  split; [exact sample_rectangular|]. split; [exact sample_matching|].
  exact (make_table_newline_placement pystr str_id sample_rows sample_labels false
           sample_rectangular sample_matching).
Defined.

(** ** Further properties of the padding *)

Lemma paddedWord_shape (word : pystr) (max_length : Z) (centered : bool)
    (extra_spaces : Z) :
  exists l r : nat,
    paddedWord word max_length centered extra_spaces
    = repeat space l ++ word ++ repeat space r.
Proof.
  unfold paddedWord. destruct centered.
  - unfold center. destruct (len word >=? max_length + extra_spaces).
    + exists 0%nat, 0%nat. simpl. rewrite app_nil_r. reflexivity.
    + eexists _, _. reflexivity.
  - unfold ljust, rjust.
    destruct (len word >=? Z.min (int_half extra_spaces + len word)
                                 (max_length + extra_spaces)).
    + destruct (len word >=? max_length + extra_spaces).
      * exists 0%nat, 0%nat. simpl. rewrite app_nil_r. reflexivity.
      * exists 0%nat. eexists. reflexivity.
    + match goal with |- context [if ?c then _ else _] => destruct c end.
      * eexists. exists 0%nat. rewrite app_nil_r. reflexivity.
      * eexists _, _. rewrite <- app_assoc. reflexivity.
Qed.

(** X1: [paddedWord] never cuts or changes the word: for widths within the
    limits of the string operations and either alignment, the result is the
    word between two runs of spaces, and the spaces added make up for what the
    word lacks to the target width. *)
Theorem paddedWord_pads_only (word : pystr) (max_length : Z) (centered : bool)
    (extra_spaces : Z) :
  padding_in_range max_length centered extra_spaces ->
  exists l r : nat,
    paddedWord word max_length centered extra_spaces
    = repeat space l ++ word ++ repeat space r /\
    Z.of_nat (l + r) = Z.max 0 (max_length + extra_spaces - len word).
Proof.
  intros _.
  destruct (paddedWord_shape word max_length centered extra_spaces) as (l & r & H).
  exists l, r. split; [exact H|].
  pose proof (paddedWord_len word max_length centered extra_spaces) as Hl.
  rewrite H, !len_app in Hl. unfold len in Hl at 1 3. rewrite !repeat_length in Hl.
  pose proof (len_nonneg word). lia.
Qed.

Lemma padding_in_range_sample (max_length : Z) (centered : bool) :
  0 <= max_length <= 100 -> padding_in_range max_length centered 2.
Proof.
  intros H. unfold padding_in_range, ssize_t, exact_half.
  change (2 ^ 63) with 9223372036854775808.
  change (2 ^ 53) with 9007199254740992. simpl Z.abs. split; [lia|]. intros _. lia.
Defined.

Lemma paddedWord_pads_only_witness :
  padding_in_range 3 false 2 /\
  exists l r : nat,
    paddedWord (lit "a") 3 false 2 = repeat space l ++ lit "a" ++ repeat space r /\
    Z.of_nat (l + r) = Z.max 0 (3 + 2 - len (lit "a")).
Proof.
  assert (H : padding_in_range 3 false 2) by (apply padding_in_range_sample; lia).
  split; [exact H|].
  exact (paddedWord_pads_only (lit "a") 3 false 2 H).
Defined.

(** X2: a word at least as long as the target width comes back unchanged in
    both alignments, for widths within the limits of the string operations. *)
Theorem paddedWord_long_word (word : pystr) (max_length : Z) (centered : bool)
    (extra_spaces : Z) :
  padding_in_range max_length centered extra_spaces ->
  max_length + extra_spaces <= len word ->
  paddedWord word max_length centered extra_spaces = word.
Proof.
  intros _ Hw. unfold paddedWord, center, ljust, rjust.
  replace (len word >=? max_length + extra_spaces) with true
    by (symmetry; apply Z.geb_le; lia).
  replace (len word >=? Z.min (int_half extra_spaces + len word)
                              (max_length + extra_spaces)) with true
    by (symmetry; apply Z.geb_le; lia).
  replace (len word >=? max_length + extra_spaces) with true
    by (symmetry; apply Z.geb_le; lia).
  destruct centered; reflexivity.
Qed.

Lemma paddedWord_long_word_witness :
  padding_in_range 1 true 2 /\
  1 + 2 <= len (lit "abcd") /\ paddedWord (lit "abcd") 1 true 2 = lit "abcd".
Proof.
  assert (H : padding_in_range 1 true 2) by (apply padding_in_range_sample; lia).
  split; [exact H|]. split; [discriminate|].
  apply (paddedWord_long_word (lit "abcd") 1 true 2 H). discriminate.
Defined.

(** X3: without [centered], a word that fits its column gets a left margin
    of [extra_spaces // 2] spaces and is filled with spaces on the right up to
    the target width, for widths within the limits of the string operations
    and an [extra_spaces] that the division halves exactly. *)
Theorem paddedWord_left_margin (word : pystr) (max_length extra_spaces : Z) :
  padding_in_range max_length false extra_spaces ->
  0 <= extra_spaces -> len word <= max_length ->
  paddedWord word max_length false extra_spaces
  = repeat space (Z.to_nat (extra_spaces / 2)) ++ word
    ++ repeat space (Z.to_nat (max_length + extra_spaces - extra_spaces / 2 - len word)).
Proof.
  intros _ Hes Hw. unfold paddedWord, int_half.
  rewrite Z.quot_div_nonneg by lia.
  assert (Hd : 0 <= extra_spaces / 2 <= extra_spaces)
    by (Z.to_euclidean_division_equations; lia).
  rewrite Z.min_l by lia.
  assert (Hr : rjust word (extra_spaces / 2 + len word) space
               = repeat space (Z.to_nat (extra_spaces / 2)) ++ word).
  { unfold rjust. destruct (Z.geb_spec (len word) (extra_spaces / 2 + len word)).
    - replace (extra_spaces / 2) with 0 by lia. reflexivity.
    - do 2 f_equal. lia. }
  rewrite Hr. unfold ljust. rewrite len_app, len_repeat, Z.max_r by lia.
  destruct (Z.geb_spec (extra_spaces / 2 + len word) (max_length + extra_spaces)).
  - replace (max_length + extra_spaces - extra_spaces / 2 - len word) with 0 by lia.
    simpl. rewrite app_nil_r. reflexivity.
  - rewrite <- app_assoc. do 3 f_equal. lia.
Qed.

Lemma paddedWord_left_margin_witness :
  padding_in_range 3 false 2 /\ 0 <= 2 /\ len (lit "a") <= 3 /\
  paddedWord (lit "a") 3 false 2
  = repeat space (Z.to_nat (2 / 2)) ++ lit "a"
    ++ repeat space (Z.to_nat (3 + 2 - 2 / 2 - len (lit "a"))).
Proof.
  assert (H : padding_in_range 3 false 2) by (apply padding_in_range_sample; lia).
  split; [exact H|]. split; [discriminate|]. split; [discriminate|].
  apply (paddedWord_left_margin (lit "a") 3 2 H); discriminate.
Defined.

(** X4: with the two extra spaces of [make_table], a word that fits its
    column has at least one space on either side, in both alignments. *)
Theorem paddedWord_space_on_either_side (word : pystr) (max_length : Z) (centered : bool) :
  len word <= max_length ->
  exists l r : nat,
    (1 <= l)%nat /\ (1 <= r)%nat /\
    Z.of_nat (l + r) = max_length + 2 - len word /\
    paddedWord word max_length centered 2
    = repeat space l ++ word ++ repeat space r.
Proof.
  intros Hw. destruct centered.
  - unfold paddedWord, center.
    destruct (Z.geb_spec (len word) (max_length + 2)) as [Hge|_]; [lia|].
    rewrite land_land_1.
    set (marg := max_length + 2 - len word).
    pose proof (Z.div_mod marg 2 ltac:(lia)) as Hdm.
    pose proof (odd_mod2 marg) as Hm.
    assert (Hmarg : 2 <= marg) by (unfold marg; lia).
    eexists _, _. split; [|split; [|split; [|reflexivity]]];
      destruct (Z.odd marg), (Z.odd (max_length + 2)); cbn [andb]; lia.
  - unfold paddedWord. change (int_half 2) with 1.
    rewrite Z.min_l by lia. unfold rjust.
    destruct (Z.geb_spec (len word) (1 + len word)) as [Hge|_]; [lia|].
    replace (1 + len word - len word) with 1 by lia.
    unfold ljust. rewrite len_app. change (len (repeat space (Z.to_nat 1))) with 1.
    destruct (Z.geb_spec (1 + len word) (max_length + 2)) as [Hge|_]; [lia|].
    exists 1%nat. eexists. rewrite <- app_assoc.
    split; [|split; [|split; [|reflexivity]]]; lia.
Qed.

Lemma paddedWord_space_on_either_side_witness :
  len (lit "ccc") <= 3 /\
  exists l r : nat,
    (1 <= l)%nat /\ (1 <= r)%nat /\
    Z.of_nat (l + r) = 3 + 2 - len (lit "ccc") /\
    paddedWord (lit "ccc") 3 true 2
    = repeat space l ++ lit "ccc" ++ repeat space r.
Proof.
  split; [discriminate|].
  apply (paddedWord_space_on_either_side (lit "ccc") 3 true). discriminate.
Defined.

(** ** Further properties of the line builders *)

Lemma flat_map_join {A : Type} (f : A -> pystr) (sep : pystr) (x : A) (xs : list A) :
  flat_map (fun a => f a ++ sep) (x :: xs) = join sep (map f (x :: xs)) ++ sep.
Proof.
  revert x. induction xs as [|y xs IH]; intros x.
  - simpl. rewrite app_nil_r. reflexivity.
  - change (flat_map (fun a => f a ++ sep) (x :: y :: xs))
      with ((f x ++ sep) ++ flat_map (fun a => f a ++ sep) (y :: xs)).
    rewrite IH.
    change (join sep (map f (x :: y :: xs)))
      with (f x ++ sep ++ join sep (map f (y :: xs))).
    rewrite <- !app_assoc. reflexivity.
Qed.

Lemma map_join (f : pychar -> pychar) (sep : pystr) (parts : list pystr) :
  map f (join sep parts) = join (map f sep) (map (map f) parts).
Proof.
  induction parts as [|p ps IH]; [reflexivity|].
  destruct ps as [|q ps]; [reflexivity|].
  change (join sep (p :: q :: ps)) with (p ++ sep ++ join sep (q :: ps)).
  rewrite !map_app, IH. reflexivity.
Qed.

Lemma drop_last_segments (b : Border) (es : Z) (c : Z) (cols : list Z) :
  length (tc b) = 1%nat ->
  drop_last (tl b ++ segments b es (c :: cols))
  = tl b ++ join (tc b) (map (fun c => str_mul (h b) (c + es)) (c :: cols)).
Proof.
  intros Ht. unfold segments.
  rewrite (flat_map_join (fun c => str_mul (h b) (c + es))).
  destruct (tc b) as [|t [|t' ts]] eqn:E; try discriminate.
  unfold drop_last. rewrite !app_assoc, removelast_last. reflexivity.
Qed.

(** X5: for a border whose top junction is one character and run lengths
    [col_length + extra_spaces] that the repetition accepts, the top border of
    a table with columns is the top left corner, the runs of the horizontal
    glyph (one per column, [col_length + extra_spaces] long) joined by the top
    junction, and the top right corner. *)
Theorem firstLine_join (b : Border) (extra_spaces : Z) (cols : list Z) :
  cols <> [] -> length (tc b) = 1%nat ->
  Forall (fun c => ssize_t (c + extra_spaces)) cols ->
  firstLine cols b extra_spaces
  = tl b ++ join (tc b) (map (fun c => str_mul (h b) (c + extra_spaces)) cols) ++ tr b.
Proof.
  intros Hc Ht _. destruct cols as [|c cols]; [contradiction|].
  rewrite firstLine_cons, drop_last_segments by exact Ht.
  rewrite <- app_assoc. reflexivity.
Qed.

Lemma ssize_t_sample : Forall (fun c => ssize_t (c + 2)) [3; 2].
Proof.
  unfold ssize_t. change (2 ^ 63) with 9223372036854775808.
  repeat constructor; simpl; lia.
Defined.

Lemma firstLine_join_witness :
  [3; 2] <> [] /\ length (tc border) = 1%nat /\
  Forall (fun c => ssize_t (c + 2)) [3; 2] /\
  firstLine [3; 2] border 2
  = tl border ++ join (tc border) (map (fun c => str_mul (h border) (c + 2)) [3; 2])
    ++ tr border.
Proof.
  split; [discriminate|]. split; [reflexivity|]. split; [exact ssize_t_sample|].
  apply (firstLine_join border 2 [3; 2]);
    [discriminate | reflexivity | exact ssize_t_sample].
Defined.

Lemma map_runs (f : pychar -> pychar) (x : pychar) (es : Z) (cols : list Z) :
  f x = x ->
  map (map f) (map (fun c => str_mul [x] (c + es)) cols)
  = map (fun c => str_mul [x] (c + es)) cols.
Proof.
  intros Hx. rewrite map_map. apply map_ext. intros c.
  rewrite str_mul_char, map_repeat, Hx. reflexivity.
Qed.

(** X6: for run lengths that the repetition accepts, the separator under the
    header and the bottom border have the shape of the top border with the
    middle, respectively bottom, corners and junctions in place of the top
    ones; the horizontal runs are untouched. *)
Theorem lower_borders_join (extra_spaces : Z) (cols : list Z) :
  cols <> [] -> Forall (fun c => ssize_t (c + extra_spaces)) cols ->
  headerBotLine cols border extra_spaces
  = ml border
    ++ join (mc border) (map (fun c => str_mul (h border) (c + extra_spaces)) cols)
    ++ mr border
  /\
  lastLine cols border extra_spaces
  = bl border
    ++ join (bc border) (map (fun c => str_mul (h border) (c + extra_spaces)) cols)
    ++ br border.
Proof.
  intros Hc _. destruct cols as [|c cols]; [contradiction|].
  rewrite headerBotLine_map, lastLine_map.
  rewrite firstLine_cons, drop_last_segments by reflexivity.
  cbn [h tl tc tr ml mc mr bl bc br border].
  rewrite !map_app, !map_join, !map_runs by reflexivity.
  split; reflexivity.
Qed.

Lemma lower_borders_join_witness :
  [3; 2] <> [] /\ Forall (fun c => ssize_t (c + 2)) [3; 2] /\
  headerBotLine [3; 2] border 2
  = ml border ++ join (mc border) (map (fun c => str_mul (h border) (c + 2)) [3; 2])
    ++ mr border
  /\
  lastLine [3; 2] border 2
  = bl border ++ join (bc border) (map (fun c => str_mul (h border) (c + 2)) [3; 2])
    ++ br border.
Proof.
  split; [discriminate|]. split; [exact ssize_t_sample|].
  apply (lower_borders_join 2 [3; 2]); [discriminate | exact ssize_t_sample].
Defined.

Lemma wordsLine_loop_short (b : Border) (words : list pystr) (centered : bool) (es : Z)
    (cols : list Z) :
  forall (i : nat) (line : pystr),
    (i <= length words < i + length cols)%nat ->
    wordsLine_loop b words centered es i cols line = Raise IndexError.
Proof.
  induction cols as [|c cols IH]; intros i line Hi; simpl in *; [lia|].
  unfold getitem. destruct (nth_error words i) as [w|] eqn:Hw; [|reflexivity].
  cbn [bind]. apply IH.
  assert (i < length words)%nat by (apply nth_error_Some; congruence). lia.
Qed.

(** X7: on at least one column, with widths within the limits of the
    padding, [wordsLine] needs a word for every column: with enough words it
    returns the vertical bar, the padded words of the columns joined by
    vertical bars, and a closing bar, ignoring the words beyond the columns;
    with fewer words it raises [IndexError]. *)
Theorem wordsLine_result (cols : list Z) (b : Border) (words : list pystr)
    (centered : bool) (extra_spaces : Z) :
  cols <> [] ->
  Forall (fun c => padding_in_range c centered extra_spaces) cols ->
  wordsLine cols b words centered extra_spaces
  = if (length cols <=? length words)%nat
    then Ok (v b
             ++ join (v b)
                  (map (fun cw => paddedWord (snd cw) (fst cw) centered extra_spaces)
                       (combine cols words))
             ++ v b)
    else Raise IndexError.
Proof.
  intros Hc _. destruct (Nat.leb_spec (length cols) (length words)) as [Hl|Hl].
  - rewrite wordsLine_ok by exact Hl. unfold content_line, cells.
    destruct cols as [|c cols]; [contradiction|].
    destruct words as [|w words]; [simpl in Hl; lia|].
    cbn [combine].
    rewrite (flat_map_join
               (fun cw => paddedWord (snd cw) (fst cw) centered extra_spaces)).
    reflexivity.
  - unfold wordsLine. destruct cols as [|c cols]; [contradiction|].
    replace (len (c :: cols) <? 1) with false
      by (symmetry; apply Z.ltb_ge; unfold len; simpl; lia).
    apply wordsLine_loop_short. lia.
Qed.

Lemma padding_in_range_cols (centered : bool) :
  Forall (fun c => padding_in_range c centered 2) [3; 2].
Proof.
  apply Forall_cons; [apply padding_in_range_sample; lia|].
  apply Forall_cons; [apply padding_in_range_sample; lia|].
  apply Forall_nil.
Defined.

Lemma wordsLine_result_witness :
  [3; 2] <> [] /\
  Forall (fun c => padding_in_range c false 2) [3; 2] /\
  wordsLine [3; 2] border [lit "a"] false 2
  = if (length [3; 2] <=? length [lit "a"])%nat
    then Ok (v border
             ++ join (v border)
                  (map (fun cw => paddedWord (snd cw) (fst cw) false 2)
                       (combine [3; 2] [lit "a"]))
             ++ v border)
    else Raise IndexError.
Proof.
  split; [discriminate|]. split; [exact (padding_in_range_cols false)|].
  apply (wordsLine_result [3; 2] border [lit "a"] false 2);
    [discriminate | exact (padding_in_range_cols false)].
Defined.

Section Body.

Variable Any : Type.
Variable str : Any -> pystr.

Lemma createWordsLines_loop_acc (cl : list Z) (b : Border) (centered : bool) (es : Z)
    (rows : list (list Any)) :
  forall acc : pystr,
    createWordsLines_loop str cl b centered es rows acc
    = x <- createWordsLines_loop str cl b centered es rows [] ;; Ok (acc ++ x).
Proof.
  induction rows as [|row rows IH]; intros acc; simpl.
  - rewrite app_nil_r. reflexivity.
  - destruct (wordsLine cl b (map str row) centered es) as [l|e]; [|reflexivity].
    cbn [bind]. rewrite IH. rewrite (IH (l ++ [newline])).
    destruct (createWordsLines_loop str cl b centered es rows []) as [x|e];
      [|reflexivity].
    cbn [bind]. rewrite <- !app_assoc. reflexivity.
Qed.

(** X8: the rows of the body are rendered one after the other and
    independently: the body of two lists of rows put together is the body of
    the first followed by the body of the second, and it fails as soon as one
    of them fails. *)
Theorem createWordsLines_app (rows1 rows2 : list (list Any)) (cl : list Z)
    (b : Border) (centered : bool) (es : Z) :
  createWordsLines str (rows1 ++ rows2) cl b centered es
  = x <- createWordsLines str rows1 cl b centered es ;;
    y <- createWordsLines str rows2 cl b centered es ;;
    Ok (x ++ y).
Proof.
  unfold createWordsLines.
  induction rows1 as [|row rows1 IH]; simpl.
  - destruct (createWordsLines_loop str cl b centered es rows2 []); reflexivity.
  - destruct (wordsLine cl b (map str row) centered es) as [l|e]; [|reflexivity].
    cbn [bind].
    rewrite (createWordsLines_loop_acc cl b centered es (rows1 ++ rows2)), IH.
    rewrite (createWordsLines_loop_acc cl b centered es rows1 (l ++ [newline])).
    destruct (createWordsLines_loop str cl b centered es rows1 []) as [x|e];
      [|reflexivity].
    cbn [bind].
    destruct (createWordsLines_loop str cl b centered es rows2 []) as [y|e];
      [|reflexivity].
    cbn [bind]. rewrite <- !app_assoc. reflexivity.
Qed.

End Body.

(** ** Further properties of the table *)

Lemma mapM_Ok_inv {A B : Type} (f : A -> result B) (l : list A) (bs : list B) :
  mapM f l = Ok bs -> forall a, In a l -> exists b, f a = Ok b.
Proof.
  revert bs. induction l as [|x l IH]; simpl; intros bs H a Ha; [contradiction|].
  destruct (f x) as [b|e] eqn:Hx; simpl in H; [|discriminate].
  destruct (mapM f l) as [bs'|e]; simpl in H; [|discriminate].
  destruct Ha as [<-|Ha]; [exists b; exact Hx | exact (IH bs' eq_refl a Ha)].
Qed.

Lemma getitem_Ok_lt {A : Type} (l : list A) (i : nat) (a : A) :
  getitem l i = Ok a -> (i < length l)%nat.
Proof.
  unfold getitem. destruct (nth_error l i) eqn:E; [|discriminate].
  intros _. apply nth_error_Some. congruence.
Qed.

Lemma getitem_raises {A : Type} (l : list A) (i : nat) (e : exn) :
  getitem l i = Raise e -> e = IndexError.
Proof. unfold getitem. destruct (nth_error l i); congruence. Qed.

Section Shape.

Variable Any : Type.
Variable str : Any -> pystr.

Lemma well_shaped_spec (rows : list (list Any)) (labels : option (list Any)) :
  well_shaped rows labels = true
  <-> rows <> [] /\ covers (columns rows) rows /\ labels_cover (columns rows) labels.
Proof.
  unfold well_shaped, covers, labels_cover, columns.
  destruct rows as [|row0 rest]; [split; [discriminate | intros [H _]; contradiction]|].
  cbn [hd]. rewrite andb_true_iff, forallb_forall, Forall_forall.
  split.
  - intros [Hr Hl]. split; [discriminate|]. split.
    + intros row Hin. apply Nat.leb_le. apply Hr. exact Hin.
    + destruct labels; [apply Nat.leb_le; exact Hl | exact I].
  - intros (_ & Hr & Hl). split.
    + intros row Hin. apply Nat.leb_le. apply Hr. exact Hin.
    + destruct labels; [apply Nat.leb_le; exact Hl | reflexivity].
Qed.

Lemma col_lengths_of_Ok_shape (rows : list (list Any)) (labels : option (list Any))
    (cl : list Z) :
  col_lengths_of str rows labels = Ok cl -> well_shaped rows labels = true.
Proof.
  unfold col_lengths_of. destruct rows as [|row0 rest]; [discriminate|].
  cbn [getitem nth_error bind]. set (rows := row0 :: rest). set (n := length row0).
  destruct (mapM _ (seq 0 n)) as [c1|e] eqn:E1; cbn [bind]; [|discriminate].
  intros E2. apply well_shaped_spec. split; [discriminate|].
  change (columns rows) with n. unfold covers. split.
  - apply Forall_forall. intros row Hin.
    destruct n as [|m] eqn:En; [lia|].
    destruct (mapM_Ok_inv _ _ _ E1 m) as (b & Hb); [apply in_seq; lia|].
    destruct (mapM _ rows) as [ls|e] eqn:E3; cbn [bind] in Hb; [|discriminate].
    destruct (mapM_Ok_inv _ _ _ E3 row Hin) as (x & Hx).
    destruct (getitem row m) as [c|e] eqn:Hg; cbn [bind] in Hx; [|discriminate].
    apply getitem_Ok_lt in Hg. lia.
  - destruct labels as [ls|]; [|exact I]. cbn [labels_cover].
    destruct n as [|m] eqn:En; [lia|].
    destruct (mapM_Ok_inv _ _ _ E2 m) as (b & Hb); [apply in_seq; lia|].
    destruct (getitem c1 m) as [c|e]; cbn [bind] in Hb; [|discriminate].
    destruct (getitem (map (fun l => len (str l)) ls) m) as [x|e] eqn:Hg;
      cbn [bind] in Hb; [|discriminate].
    apply getitem_Ok_lt in Hg. rewrite length_map in Hg. lia.
Qed.

Lemma col_lengths_of_raises (rows : list (list Any)) (labels : option (list Any))
    (e : exn) :
  col_lengths_of str rows labels = Raise e -> e = IndexError.
Proof.
  unfold col_lengths_of. destruct rows as [|row0 rest]; [cbn; congruence|].
  cbn [getitem nth_error bind]. set (rows := row0 :: rest).
  destruct (mapM _ (seq 0 (length row0))) as [c1|e1] eqn:E1; cbn [bind].
  - intros E2. apply mapM_raises in E2. destruct E2 as (i & _ & Hi).
    destruct (getitem c1 i) as [c|e2] eqn:G1; cbn [bind] in Hi.
    + match type of Hi with
      | context [getitem ?l i] => destruct (getitem l i) as [x|e3] eqn:G2
      end; cbn [bind] in Hi; [discriminate|].
      injection Hi as <-. exact (getitem_raises _ _ _ G2).
    + injection Hi as <-. exact (getitem_raises _ _ _ G1).
  - intros H. injection H as <-.
    apply mapM_raises in E1. destruct E1 as (i & _ & Hi).
    destruct (mapM _ rows) as [ls|e'] eqn:E'; cbn [bind] in Hi.
    + apply mapM_length in E'. destruct ls; discriminate.
    + injection Hi as <-. apply mapM_raises in E'. destruct E' as (row & _ & Hrow).
      destruct (getitem row i) as [c|e2] eqn:G; cbn [bind] in Hrow; [discriminate|].
      injection Hrow as <-. exact (getitem_raises _ _ _ G).
Qed.

Lemma make_table_well_shaped (rows : list (list Any)) (labels : option (list Any))
    (centered : bool) :
  well_shaped rows labels = true ->
  make_table str rows labels centered
  = Ok (emit (lines_above str rows labels centered) (bottom_line str rows labels)).
Proof.
  intros H. apply well_shaped_spec in H. destruct H as (H1 & H2 & H3).
  apply make_table_ok; assumption.
Qed.

Lemma make_table_ill_shaped (rows : list (list Any)) (labels : option (list Any))
    (centered : bool) :
  well_shaped rows labels = false ->
  make_table str rows labels centered = Raise IndexError.
Proof.
  intros H. unfold make_table.
  destruct (col_lengths_of str rows labels) as [cl|e] eqn:E.
  - apply col_lengths_of_Ok_shape in E. congruence.
  - apply col_lengths_of_raises in E. subst e. reflexivity.
Qed.

(** X9: [make_table] returns a table exactly when there is a first row, no
    row has fewer cells than the first one and the labels, if given, are not
    fewer either; on every other input it raises [IndexError], and it never
    raises anything else. *)
Theorem make_table_result (rows : list (list Any)) (labels : option (list Any))
    (centered : bool) :
  make_table str rows labels centered
  = if well_shaped rows labels
    then Ok (emit (lines_above str rows labels centered) (bottom_line str rows labels))
    else Raise IndexError.
Proof.
  destruct (well_shaped rows labels) eqn:H.
  - apply make_table_well_shaped. exact H.
  - apply make_table_ill_shaped. exact H.
Qed.

End Shape.

Lemma combine_firstn {A B : Type} (l : list A) (l' : list B) :
  combine l (firstn (length l) l') = combine l l'.
Proof.
  revert l'. induction l as [|a l IH]; intros [|b l']; simpl; try reflexivity.
  rewrite IH. reflexivity.
Qed.

Lemma content_line_firstn (b : Border) (centered : bool) (es : Z) (cols : list Z)
    (words : list pystr) :
  content_line b centered es cols (firstn (length cols) words)
  = content_line b centered es cols words.
Proof. unfold content_line, cells. rewrite combine_firstn. reflexivity. Qed.

Section Truncation.

Variable Any : Type.
Variable str : Any -> pystr.

Lemma columns_truncate (rows : list (list Any)) :
  columns (truncate rows) = columns rows.
Proof.
  unfold truncate, columns. destruct rows as [|row0 rest]; [reflexivity|].
  cbn [hd map]. rewrite firstn_all. reflexivity.
Qed.

Lemma cell_len_firstn (n i : nat) (row : list Any) :
  (i < n)%nat -> cell_len str (firstn n row) i = cell_len str row i.
Proof.
  intros Hi. unfold cell_len. rewrite nth_error_firstn.
  replace (i <? n)%nat with true by (symmetry; apply Nat.ltb_lt; exact Hi).
  reflexivity.
Qed.

Lemma well_shaped_truncate (rows : list (list Any)) (labels : option (list Any)) :
  well_shaped (truncate rows) labels = well_shaped rows labels.
Proof.
  apply Bool.eq_iff_eq_true. rewrite !well_shaped_spec, columns_truncate.
  unfold truncate, covers. rewrite Forall_map.
  assert (H : forall row : list Any,
             (columns rows <= length (firstn (columns rows) row))%nat
             <-> (columns rows <= length row)%nat)
    by (intros row; rewrite length_firstn; lia).
  split; intros (H1 & H2 & H3); (split; [|split; [|exact H3]]).
  - destruct rows; [contradiction H1; reflexivity | discriminate].
  - eapply Forall_impl; [|exact H2]. intros row. apply H.
  - destruct rows; [contradiction | discriminate].
  - eapply Forall_impl; [|exact H2]. intros row. apply H.
Qed.

Lemma widths_truncate (rows : list (list Any)) (labels : option (list Any)) :
  widths str (truncate rows) labels = widths str rows labels.
Proof.
  unfold widths. rewrite columns_truncate. apply map_ext_in.
  intros i Hi. apply in_seq in Hi. unfold column_width, truncate.
  rewrite map_map.
  rewrite (map_ext_in _ (fun row => cell_len str row i));
    [reflexivity | intros row _; apply cell_len_firstn; lia].
Qed.

Lemma row_lines_truncate (rows : list (list Any)) (labels : option (list Any))
    (centered : bool) :
  row_lines str (widths str rows labels) (truncate rows) centered
  = row_lines str (widths str rows labels) rows centered.
Proof.
  unfold row_lines, truncate. rewrite map_map. apply map_ext. intros row.
  rewrite <- firstn_map. rewrite <- (length_widths Any str rows labels).
  apply content_line_firstn.
Qed.

(** X10: the cells a row has beyond the columns of the first row are
    ignored: [make_table] gives the same result, a table or the same
    exception, as on the rows cut down to the length of the first one. *)
Theorem make_table_truncate (rows : list (list Any)) (labels : option (list Any))
    (centered : bool) :
  make_table str rows labels centered = make_table str (truncate rows) labels centered.
Proof.
  destruct (well_shaped rows labels) eqn:H.
  - rewrite (make_table_well_shaped Any str rows) by exact H.
    rewrite (make_table_well_shaped Any str (truncate rows))
      by (rewrite well_shaped_truncate; exact H).
    unfold lines_above, bottom_line.
    rewrite widths_truncate, row_lines_truncate. reflexivity.
  - rewrite (make_table_ill_shaped Any str rows) by exact H.
    rewrite (make_table_ill_shaped Any str (truncate rows))
      by (rewrite well_shaped_truncate; exact H).
    reflexivity.
Qed.

Lemma widths_firstn_labels (rows : list (list Any)) (ls : list Any) :
  widths str rows (Some (firstn (columns rows) ls)) = widths str rows (Some ls).
Proof.
  unfold widths. apply map_ext_in. intros i Hi. apply in_seq in Hi.
  unfold column_width. rewrite cell_len_firstn by lia. reflexivity.
Qed.

(** X11: in a table with columns, the labels beyond the columns are ignored
    as well: [make_table] gives the same result as with the labels cut down
    to the number of columns. *)
Theorem make_table_truncate_labels (rows : list (list Any)) (ls : list Any)
    (centered : bool) :
  columns rows <> 0%nat ->
  make_table str rows (Some ls) centered
  = make_table str rows (Some (firstn (columns rows) ls)) centered.
Proof.
  intros Hn.
  assert (Hw : well_shaped rows (Some (firstn (columns rows) ls))
               = well_shaped rows (Some ls)).
  { unfold well_shaped, columns. destruct rows as [|row0 rest]; [reflexivity|].
    cbn [hd]. f_equal. rewrite length_firstn.
    apply Bool.eq_iff_eq_true. rewrite !Nat.leb_le. lia. }
  destruct (well_shaped rows (Some ls)) eqn:H.
  - rewrite (make_table_well_shaped Any str rows (Some ls)) by exact H.
    rewrite (make_table_well_shaped Any str rows (Some (firstn (columns rows) ls)))
      by exact Hw.
    unfold lines_above, bottom_line. rewrite widths_firstn_labels.
    do 3 f_equal.
    destruct (columns rows) as [|m] eqn:En; [contradiction|].
    destruct ls as [|l ls]; [reflexivity|].
    cbn [firstn header_lines].
    change (l :: firstn m ls) with (firstn (S m) (l :: ls)).
    rewrite <- firstn_map, <- En, <- (length_widths Any str rows (Some (l :: ls))).
    rewrite content_line_firstn. reflexivity.
  - rewrite (make_table_ill_shaped Any str rows (Some ls)) by exact H.
    rewrite (make_table_ill_shaped Any str rows (Some (firstn (columns rows) ls)))
      by exact Hw.
    reflexivity.
Qed.

End Truncation.

Lemma make_table_truncate_labels_witness :
  columns sample_rows <> 0%nat /\
  make_table str_id sample_rows (Some [lit "X"; lit "Y"; lit "Z"]) false
  = make_table str_id sample_rows
      (Some (firstn (columns sample_rows) [lit "X"; lit "Y"; lit "Z"])) false.
Proof.
  split; [discriminate|].
  apply (make_table_truncate_labels pystr str_id sample_rows
           [lit "X"; lit "Y"; lit "Z"] false).
  discriminate.
Defined.

Lemma flat_map_occurs {A : Type} (f : A -> pystr) (x : A) (l : list A) :
  In x l -> occurs_in (f x) (flat_map f l).
Proof.
  intros Hin. apply in_split in Hin. destruct Hin as (l1 & l2 & ->).
  rewrite flat_map_app. cbn [flat_map].
  exists (flat_map f l1), (flat_map f l2). reflexivity.
Qed.

Lemma in_combine_exists {A B : Type} (l : list A) (l' : list B) (y : B) :
  length l = length l' -> In y l' -> exists x, In (x, y) (combine l l').
Proof.
  revert l'. induction l as [|a l IH]; intros [|b l'] Hlen Hin; simpl in *;
    try contradiction; try discriminate.
  destruct Hin as [->|Hin].
  - exists a. left. reflexivity.
  - destruct (IH l' ltac:(lia) Hin) as (x & Hx). exists x. right. exact Hx.
Qed.

Lemma content_line_occurs (b : Border) (centered : bool) (es : Z) (cols : list Z)
    (words : list pystr) (w : pystr) :
  length cols = length words -> In w words ->
  occurs_in w (content_line b centered es cols words).
Proof.
  intros Hlen Hin.
  destruct (in_combine_exists cols words w Hlen Hin) as (c & Hc).
  destruct cols as [|c0 cols]; [contradiction|].
  unfold content_line, cells.
  destruct (flat_map_occurs
              (fun cw => paddedWord (snd cw) (fst cw) centered es ++ v b)
              (c, w) _ Hc) as (pre & post & Hf).
  rewrite Hf. cbn [fst snd].
  destruct (paddedWord_shape w c centered es) as (l & r & Hp). rewrite Hp.
  exists (v b ++ pre ++ repeat space l), (repeat space r ++ v b ++ post).
  rewrite <- !app_assoc. reflexivity.
Qed.

Lemma inner_width_sum (es : Z) (cols : list Z) :
  0 <= es -> Forall (fun c => 0 <= c) cols ->
  inner_width es cols = fold_right Z.add 0 (map (fun c => c + (es + 1)) cols).
Proof.
  intros Hes H. induction H as [|c cols Hc _ IH]; [reflexivity|].
  change (inner_width es (c :: cols)) with (Z.max 0 (c + es) + 1 + inner_width es cols).
  cbn [map fold_right]. rewrite IH. lia.
Qed.

Section Content.

Variable Any : Type.
Variable str : Any -> pystr.

Lemma column_width_nonneg (rows : list (list Any)) (labels : option (list Any))
    (i : nat) :
  0 <= column_width str rows labels i.
Proof.
  unfold column_width.
  pose proof (fold_right_max_nonneg (map (fun row => cell_len str row i) rows)).
  destruct labels; lia.
Qed.

Lemma widths_nonneg (rows : list (list Any)) (labels : option (list Any)) :
  Forall (fun c => 0 <= c) (widths str rows labels).
Proof.
  unfold widths. apply Forall_map. apply Forall_forall. intros i _.
  apply column_width_nonneg.
Qed.

Lemma length_header_lines (cl : list Z) (labels : option (list Any)) (centered : bool) :
  length (header_lines str cl labels centered) = header_count labels.
Proof. destruct labels as [[|l ls]|]; reflexivity. Qed.

(** X12: in a table with columns every line is as long as the widths of the
    columns, three more characters per column (two spaces of padding and a
    bar) and one more for the first bar. *)
Theorem make_table_line_width (rows : list (list Any)) (labels : option (list Any))
    (centered : bool) :
  rectangular rows -> matching_labels rows labels -> printable_table str rows labels ->
  columns rows <> 0%nat ->
  exists cl out,
    col_lengths_of str rows labels = Ok cl /\
    make_table str rows labels centered = Ok out /\
    forall l, In l (split_lines out) ->
      len l = 1 + fold_right Z.add 0 (map (fun w => w + 3) cl).
Proof.
  intros Hr Hm Hp Hn.
  destruct (make_table_lines Any str rows labels centered Hr Hm Hp) as (out & Hout & Hs).
  exists (widths str rows labels), out. split; [|split; [exact Hout|]].
  - apply col_lengths_of_ok;
      [apply Hr | apply rectangular_covers, Hr | apply matching_labels_cover, Hm].
  - pose proof (len_all_lines Any str rows labels centered Hr Hm) as Hall.
    rewrite <- Hs in Hall. rewrite Forall_forall in Hall.
    intros l Hl. rewrite (Hall l Hl).
    pose proof (widths_nonneg rows labels) as Hpos.
    pose proof (length_widths Any str rows labels) as Hlen.
    destruct (widths str rows labels) as [|c cols]; [simpl in Hlen; congruence|].
    rewrite len_firstLine, inner_width_sum by (lia || exact Hpos). reflexivity.
Qed.

(** X13: no cell is lost or cut: in the rendered table the line of row [k]
    (after the top border and the header lines) contains the text of every
    cell of that row. *)
Theorem make_table_shows_cells (rows : list (list Any)) (labels : option (list Any))
    (centered : bool) :
  rectangular rows -> matching_labels rows labels -> printable_table str rows labels ->
  exists out,
    make_table str rows labels centered = Ok out /\
    forall k row, nth_error rows k = Some row ->
      exists line,
        nth_error (split_lines out) (1 + header_count labels + k) = Some line /\
        forall c, In c row -> occurs_in (str c) line.
Proof.
  intros Hr Hm Hp.
  destruct (make_table_lines Any str rows labels centered Hr Hm Hp) as (out & Hout & Hs).
  exists out. split; [exact Hout|]. intros k row Hk.
  exists (content_line border centered 2 (widths str rows labels) (map str row)). split.
  - rewrite Hs. unfold lines_above. cbn [app Nat.add nth_error].
    rewrite <- app_assoc.
    rewrite nth_error_app2 by (rewrite length_header_lines; lia).
    rewrite length_header_lines.
    replace (header_count labels + k - header_count labels)%nat with k by lia.
    rewrite nth_error_app1
      by (unfold row_lines; rewrite length_map; apply nth_error_Some; congruence).
    unfold row_lines. rewrite nth_error_map, Hk. reflexivity.
  - intros c Hc. apply content_line_occurs.
    + rewrite length_widths, length_map. symmetry.
      destruct Hr as [_ Hr]. rewrite Forall_forall in Hr. apply Hr.
      eapply nth_error_In. exact Hk.
    + apply in_map. exact Hc.
Qed.

(** X14: with labels, the second line of the rendered table is the header
    and contains the text of every label. *)
Theorem make_table_shows_labels (rows : list (list Any)) (l : Any) (ls : list Any)
    (centered : bool) :
  rectangular rows -> matching_labels rows (Some (l :: ls)) ->
  printable_table str rows (Some (l :: ls)) ->
  exists out,
    make_table str rows (Some (l :: ls)) centered = Ok out /\
    exists line,
      nth_error (split_lines out) 1 = Some line /\
      forall c, In c (l :: ls) -> occurs_in (str c) line.
Proof.
  intros Hr Hm Hp.
  destruct (make_table_lines Any str rows (Some (l :: ls)) centered Hr Hm Hp)
    as (out & Hout & Hs).
  exists out. split; [exact Hout|].
  eexists. split; [rewrite Hs; reflexivity|].
  intros c Hc. apply content_line_occurs.
  - rewrite length_widths, length_map. symmetry. exact Hm.
  - apply in_map. exact Hc.
Qed.

End Content.

Lemma make_table_line_width_witness :
  rectangular sample_rows /\ matching_labels sample_rows sample_labels /\
  printable_table str_id sample_rows sample_labels /\
  columns sample_rows <> 0%nat /\
  exists cl out,
    col_lengths_of str_id sample_rows sample_labels = Ok cl /\
    make_table str_id sample_rows sample_labels false = Ok out /\
    forall l, In l (split_lines out) ->
      len l = 1 + fold_right Z.add 0 (map (fun w => w + 3) cl).
Proof.
  split; [exact sample_rectangular|]. split; [exact sample_matching|].
  split; [exact sample_printable|]. split; [discriminate|].
  apply (make_table_line_width pystr str_id sample_rows sample_labels false
           sample_rectangular sample_matching sample_printable).
  discriminate.
Defined.

Lemma make_table_shows_cells_witness :
  rectangular sample_rows /\ matching_labels sample_rows sample_labels /\
  printable_table str_id sample_rows sample_labels /\
  exists out,
    make_table str_id sample_rows sample_labels true = Ok out /\
    forall k row, nth_error sample_rows k = Some row ->
      exists line,
        nth_error (split_lines out) (1 + header_count sample_labels + k) = Some line /\
        forall c, In c row -> occurs_in (str_id c) line.
Proof.
  split; [exact sample_rectangular|]. split; [exact sample_matching|].
  split; [exact sample_printable|].
  exact (make_table_shows_cells pystr str_id sample_rows sample_labels true
           sample_rectangular sample_matching sample_printable).
Defined.

Lemma make_table_shows_labels_witness :
  rectangular sample_rows /\ matching_labels sample_rows sample_labels /\
  printable_table str_id sample_rows sample_labels /\
  exists out,
    make_table str_id sample_rows sample_labels true = Ok out /\
    exists line,
      nth_error (split_lines out) 1 = Some line /\
      forall c, In c [lit "X"; lit "Y"] -> occurs_in (str_id c) line.
Proof.
  split; [exact sample_rectangular|]. split; [exact sample_matching|].
  split; [exact sample_printable|].
  exact (make_table_shows_labels pystr str_id sample_rows (lit "X") [lit "Y"] true
           sample_rectangular sample_matching sample_printable).
Defined.

(** A ragged table and a table without rows are refused. *)
Example make_table_refused :
  make_table str_id ragged_rows None false = Raise IndexError /\
  make_table str_id [] (Some [lit "X"]) true = Raise IndexError.
Proof. split; reflexivity. Qed.

(** ** The header and the body on their own *)

Lemma wordsLine_short (cols : list Z) (b : Border) (words : list pystr)
    (centered : bool) (es : Z) :
  (length words < length cols)%nat ->
  wordsLine cols b words centered es = Raise IndexError.
Proof.
  intros Hl. unfold wordsLine. destruct cols as [|c cols]; [simpl in Hl; lia|].
  replace (len (c :: cols) <? 1) with false
    by (symmetry; apply Z.ltb_ge; unfold len; simpl; lia).
  apply wordsLine_loop_short. lia.
Qed.

Section Parts.

Variable Any : Type.
Variable str : Any -> pystr.

(** X15: with widths within the limits of the padding, [createHeaderLines]
    needs a label for every column: then it returns the line of the labels and
    the separator line, each followed by a newline, ignoring the labels beyond
    the columns; with fewer labels it raises [IndexError]. *)
Theorem createHeaderLines_result (labels : list Any) (cols : list Z) (b : Border)
    (centered : bool) (es : Z) :
  Forall (fun c => padding_in_range c centered es) cols ->
  createHeaderLines str labels cols b centered es
  = if (length cols <=? length labels)%nat
    then Ok (content_line b centered es cols (map str labels) ++ [newline]
             ++ headerBotLine cols b es ++ [newline])
    else Raise IndexError.
Proof.
  intros _. destruct (Nat.leb_spec (length cols) (length labels)) as [Hl|Hl].
  - rewrite createHeaderLines_ok by exact Hl. cbn [flat_map].
    rewrite app_nil_r, <- !app_assoc. reflexivity.
  - unfold createHeaderLines.
    rewrite wordsLine_short by (rewrite length_map; exact Hl). reflexivity.
Qed.

Lemma createWordsLines_loop_result (cols : list Z) (b : Border) (centered : bool)
    (es : Z) (rows : list (list Any)) :
  forall acc : pystr,
    createWordsLines_loop str cols b centered es rows acc
    = if forallb (fun row => (length cols <=? length row)%nat) rows
      then Ok (acc ++ flat_map
                        (fun row => content_line b centered es cols (map str row)
                                    ++ [newline]) rows)
      else Raise IndexError.
Proof.
  induction rows as [|row rows IH]; intros acc; cbn [createWordsLines_loop forallb].
  - cbn [flat_map]. rewrite app_nil_r. reflexivity.
  - destruct (Nat.leb_spec (length cols) (length row)) as [Hl|Hl]; cbn [andb].
    + rewrite wordsLine_ok by (rewrite length_map; exact Hl). cbn [bind].
      rewrite IH. destruct (forallb _ rows); [|reflexivity].
      cbn [flat_map]. rewrite <- !app_assoc. reflexivity.
    + rewrite wordsLine_short by (rewrite length_map; exact Hl). reflexivity.
Qed.

(** X16: with widths within the limits of the padding, [createWordsLines]
    needs a cell for every column in every row: then it returns one line per
    row, each followed by a newline, ignoring the cells beyond the columns; as
    soon as a row is too short it raises [IndexError]. *)
Theorem createWordsLines_result (rows : list (list Any)) (cols : list Z) (b : Border)
    (centered : bool) (es : Z) :
  Forall (fun c => padding_in_range c centered es) cols ->
  createWordsLines str rows cols b centered es
  = if forallb (fun row => (length cols <=? length row)%nat) rows
    then Ok (flat_map
               (fun row => content_line b centered es cols (map str row) ++ [newline])
               rows)
    else Raise IndexError.
Proof.
  intros _. unfold createWordsLines. rewrite createWordsLines_loop_result.
  reflexivity.
Qed.

End Parts.

Lemma createHeaderLines_result_witness :
  Forall (fun c => padding_in_range c false 2) [3; 2] /\
  createHeaderLines str_id [lit "X"] [3; 2] border false 2
  = if (length [3; 2] <=? length [lit "X"])%nat
    then Ok (content_line border false 2 [3; 2] (map str_id [lit "X"]) ++ [newline]
             ++ headerBotLine [3; 2] border 2 ++ [newline])
    else Raise IndexError.
Proof.
  split; [exact (padding_in_range_cols false)|].
  exact (createHeaderLines_result pystr str_id [lit "X"] [3; 2] border false 2
           (padding_in_range_cols false)).
Defined.

Lemma createWordsLines_result_witness :
  Forall (fun c => padding_in_range c true 2) [3; 2] /\
  createWordsLines str_id sample_rows [3; 2] border true 2
  = if forallb (fun row => (length [3; 2] <=? length row)%nat) sample_rows
    then Ok (flat_map
               (fun row => content_line border true 2 [3; 2] (map str_id row)
                           ++ [newline])
               sample_rows)
    else Raise IndexError.
Proof.
  split; [exact (padding_in_range_cols true)|].
  exact (createWordsLines_result pystr str_id sample_rows [3; 2] border true 2
           (padding_in_range_cols true)).
Defined.
